(** * hafaloha-web: cart store, checkout page and admin pages

    A shallow embedding of the state-handling code of the storefront client:
    - [src/store/cartStore.ts]: [getSessionId], the zustand cart store
      ([fetchCart], [addItem], [updateQuantity], [removeItem], [clearCart],
      [itemCount], [subtotal]) and the checkout page that follows it in the
      same file ([handleCalculateShipping], [isFormValid], [handleSubmit]);
    - [src/pages/admin/AdminImportPage.tsx]: the polling effect and
      [fetchImportStatus];
    - the admin products page: [getVariantStatus], the product filter,
      pagination and [getStockDisplay]; the product form's
      [handleCollectionToggle];
    - [src/components/ImageUpload.tsx]: [uploadImage], [handleFileSelect],
      [handleDrop], [deleteImage], [setPrimaryImage], and the size and colour
      options of the variant manager;
    - the storefront products page: the query-parameter handlers.

    JavaScript strings are sequences of UTF-16 code units and are modelled as
    [list N]; JavaScript numbers that hold identifiers, quantities and cent
    amounts are modelled as [Z]. *)

From Stdlib Require Import ZArith NArith QArith Lia Ascii String List.
From Stdlib Require Import DecimalString.
From stdpp Require Import base option list gmap.

Local Open Scope Z_scope.

(* ===================================================================== *)
(** ** JavaScript strings *)
(* ===================================================================== *)

Module JS.

(** A string literal of the source, as code units (ASCII literals only). *)
Definition js (s : string) : list N :=
  List.map N_of_ascii (list_ascii_of_string s).

(** [!s] for a string: only the empty string is falsy. *)
Definition falsy (s : list N) : bool :=
  match s with [] => true | _ => false end.

(** [a || b] where [a] is a string that may be [undefined]. *)
Definition or_else (a : option (list N)) (b : list N) : list N :=
  match a with
  | Some s => if falsy s then b else s
  | None => b
  end.

(** [x || 0] for a number: [0] is the only falsy integer. *)
Definition num_or_zero (x : option Z) : Z :=
  match x with
  | Some n => if Z.eqb n 0 then 0 else n
  | None => 0
  end.

(** ECMAScript WhiteSpace and LineTerminator code points, the set
    removed by [String.prototype.trim]. *)
Definition is_ws (c : N) : bool :=
  (N.eqb c 9 || N.eqb c 10 || N.eqb c 11 || N.eqb c 12 || N.eqb c 13
   || N.eqb c 32 || N.eqb c 160 || N.eqb c 5760
   || (N.leb 8192 c && N.leb c 8202)
   || N.eqb c 8232 || N.eqb c 8233 || N.eqb c 8239 || N.eqb c 8287
   || N.eqb c 12288 || N.eqb c 65279)%bool.

Fixpoint trimStart (s : list N) : list N :=
  match s with
  | [] => []
  | c :: r => if is_ws c then trimStart r else s
  end.

Definition trimEnd (s : list N) : list N := rev (trimStart (rev s)).

Definition trim (s : list N) : list N := trimEnd (trimStart s).

(** [s.trim() !== ''] *)
Definition nonblank (s : list N) : bool := negb (falsy (trim s)).

(** [Array.prototype.join]. *)
Fixpoint join (sep : list N) (l : list (list N)) : list N :=
  match l with
  | [] => []
  | [x] => x
  | x :: r => x ++ sep ++ join sep r
  end.

(** [String.prototype.split] on a one-unit separator. *)
Fixpoint split (sep : N) (s : list N) : list (list N) :=
  match s with
  | [] => [[]]
  | c :: r =>
      if N.eqb c sep then [] :: split sep r
      else match split sep r with
           | [] => [[c]]
           | x :: xs => (c :: x) :: xs
           end
  end.

Definition newline : N := 10.
Definition bullet : N := 8226.

End JS.

(* ===================================================================== *)
(** ** Admin products page: variant status *)
(* ===================================================================== *)

Module AdminProducts.
Import JS.

Record ProductVariant := {
  id : Z;
  size : list N;
  color : list N;
  variant_name : list N;
  display_name : list N;
  sku : list N;
  price_cents : Z;
  stock_quantity : Z;
  available : bool;
  actually_available : bool;
  low_stock : bool
}.

Record VariantStatus := { label : list N; className : list N }.

Definition getVariantStatus (variant : ProductVariant) (inventoryLevel : list N)
  : VariantStatus :=
  if negb (actually_available variant) then
    if (bool_decide (inventoryLevel = js "variant")
        && Z.leb (stock_quantity variant) 0)%bool
    then {| label := js "Out of Stock"; className := js "bg-red-100 text-red-800" |}
    else {| label := js "Disabled"; className := js "bg-gray-100 text-gray-800" |}
  else {| label := js "Available"; className := js "bg-green-100 text-green-800" |}.

(** The variant with its manual flag replaced. *)
Definition with_available (b : bool) (v : ProductVariant) : ProductVariant :=
  {| id := id v; size := size v; color := color v;
     variant_name := variant_name v; display_name := display_name v;
     sku := sku v; price_cents := price_cents v;
     stock_quantity := stock_quantity v; available := b;
     actually_available := actually_available v; low_stock := low_stock v |}.

End AdminProducts.

(* ===================================================================== *)
(** ** Data exchanged with the commerce API *)
(* ===================================================================== *)

Module Order.

(** [types/order.ts] *)
Record ShippingAddress := {
  name : list N;
  street1 : list N;
  street2 : option (list N);
  city : list N;
  state : list N;
  zip : list N;
  country : option (list N)
}.

Record ShippingMethod := {
  carrier : list N;
  service : list N;
  rate_cents : Z;
  rate_id : option (list N);
  delivery_days : option Z
}.

Record PaymentMethod := { token : option (list N); type : list N }.

Record CreateOrderRequest := {
  email : list N;
  phone : list N;
  shipping_address : ShippingAddress;
  shipping_method : ShippingMethod;
  payment_method : PaymentMethod
}.

(** The part of [CreateOrderResponse] that the checkout page reads:
    [response.success] and [response.order.id]. *)
Record CreateOrderResponse := { success : bool; order_id : Z }.

Inductive AppMode := test | production.

Record AppConfig := { app_mode : AppMode; stripe_enabled : bool }.

End Order.

Module CartTypes.

(** Modelled from the spec: the [Cart] and [CartItem] declarations of
    [types/cart.ts], which the store imports and which are not part of the
    sources at hand. A cart holds an ordered list of items, a computed
    item count and a computed subtotal in integer cents; an item associates
    a variant with a quantity and a denormalised subtotal. *)
Record CartItem := {
  item_id : Z;
  product_variant_id : Z;
  quantity : Z;
  item_subtotal_cents : Z
}.

Record Cart := {
  items : list CartItem;
  item_count : Z;
  subtotal_cents : Z
}.

End CartTypes.

(* ===================================================================== *)
(** ** Effects: requests, failures and the event log *)
(* ===================================================================== *)

Module Eff.
Import Order CartTypes.

(** One entry of [err.response.data.issues]. *)
Record Issue := { message : list N }.

(** A rejected request, as far as the handlers inspect it:
    [err.response?.data?.error] and [err.response?.data?.issues]. *)
Record ApiError := {
  err_error : option (list N);
  err_issues : option (list Issue)
}.

(** A [TypeError] raised by the page's own code (reading a property of
    [null] or [undefined]). It is no axios error and has no [response], so
    both inspections above give [undefined]. *)
Definition type_error : ApiError :=
  {| err_error := None; err_issues := None |}.

(** The body of the POST /cart/items response, as far as [addItem] reads
    it: [response.data.message]. *)
Record ItemAdded := { added_message : option (list N) }.

(** Every awaited call that leaves the page. The first argument of the
    cart requests is the [X-Session-ID] header. *)
Inductive Request :=
| GetCart (sid : option (list N))
| PostCartItems (sid : option (list N)) (variantId quantity : Z)
| PutCartItem (sid : option (list N)) (cartItemId quantity : Z)
| DeleteCartItem (sid : option (list N)) (cartItemId : Z)
| DeleteCart (sid : option (list N))
| GetToken
| CalculateRates (address : ShippingAddress) (sid : option (list N))
    (token : option (list N))
| CreateOrder (orderData : CreateOrderRequest) (token : option (list N))
    (sid : option (list N)).

Inductive Event :=
| EReq (r : Request)
| EAlert (msg : list N)
| ENavigateOrder (orderId : Z).

(** The world outside the page: what each call answers, given everything
    that happened before it. [inl] is a rejected promise. *)
Record Server := {
  srv_get_cart : list Event -> option (list N) -> ApiError + Cart;
  (** [None]: the response has no body ([response.data] is [null] or
      [undefined]) *)
  srv_post_cart_items :
    list Event -> option (list N) -> Z -> Z -> ApiError + option ItemAdded;
  srv_put_cart_item :
    list Event -> option (list N) -> Z -> Z -> ApiError + unit;
  srv_delete_cart_item :
    list Event -> option (list N) -> Z -> ApiError + unit;
  srv_delete_cart : list Event -> option (list N) -> ApiError + unit;
  srv_get_token : list Event -> ApiError + option (list N);
  srv_calculate_rates :
    list Event -> ShippingAddress -> option (list N) -> option (list N) ->
    ApiError + list ShippingMethod;
  srv_create_order :
    list Event -> CreateOrderRequest -> option (list N) ->
    option (list N) -> ApiError + CreateOrderResponse
}.

(** Result of an async function: resolved with a value or rejected. *)
Inductive Res (A : Type) :=
| Ok (a : A)
| Throw (e : ApiError).
Arguments Ok {A} a.
Arguments Throw {A} e.

(** An async function over a state [S]: it runs from a state and the log
    of past events to a result, a new state and the extended log. *)
Definition M (S A : Type) : Type := S -> list Event -> Res A * S * list Event.

Definition ret {S A} (a : A) : M S A := fun s l => (Ok a, s, l).

Definition bind {S A B} (m : M S A) (k : A -> M S B) : M S B :=
  fun s l =>
    match m s l with
    | (Ok a, s', l') => k a s' l'
    | (Throw e, s', l') => (Throw e, s', l')
    end.

Definition throw {S A} (e : ApiError) : M S A := fun s l => (Throw e, s, l).

(** [try { m } catch (e) { h e }] *)
Definition try_catch {S A} (m : M S A) (h : ApiError -> M S A) : M S A :=
  fun s l =>
    match m s l with
    | (Ok a, s', l') => (Ok a, s', l')
    | (Throw e, s', l') => h e s' l'
    end.

(** [try { m } finally { f }], where [f] does not throw or return. *)
Definition finally {S A} (m : M S A) (f : S -> S) : M S A :=
  fun s l => match m s l with (r, s', l') => (r, f s', l') end.

Definition get {S} : M S S := fun s l => (Ok s, s, l).

(** [set(partial)]: merge an update into the state. *)
Definition set {S} (f : S -> S) : M S unit := fun s l => (Ok tt, f s, l).

Definition emit {S} (e : Event) : M S unit := fun s l => (Ok tt, s, l ++ [e]).

(** An awaited call: it is logged, then resolves or rejects as the outside
    world decides from the events that preceded it. *)
Definition request {S A} (r : Request) (answer : list Event -> ApiError + A)
  : M S A :=
  fun s l =>
    match answer l with
    | inl e => (Throw e, s, l ++ [EReq r])
    | inr a => (Ok a, s, l ++ [EReq r])
    end.

(** Running a store action inside a larger state. *)
Definition lift {S T A} (proj : T -> S) (upd : S -> T -> T) (m : M S A)
  : M T A :=
  fun t l => match m (proj t) l with (r, s', l') => (r, upd s' t, l') end.

Definition requests (l : list Event) : list Request :=
  omap (fun e => match e with EReq r => Some r | _ => None end) l.

End Eff.

Declare Scope eff_scope.
Delimit Scope eff_scope with eff.
Notation "'let*' x ':=' m 'in' k" := (Eff.bind m (fun x => k))
  (at level 10, x name, m at level 100, k at level 200) : eff_scope.
Notation "m1 ';;' m2" := (Eff.bind m1 (fun _ => m2))
  (at level 100, m2 at level 200, right associativity) : eff_scope.

(* ===================================================================== *)
(** ** Session identifier and cart store ([store/cartStore.ts]) *)
(* ===================================================================== *)

Module Session.
Import JS.

(** The browser state [getSessionId] touches: [localStorage], and how many
    identifiers [crypto.randomUUID] has produced so far. *)
Record Browser := {
  localStorage : gmap (list N) (list N);
  uuids_drawn : nat
}.

Section WithRandom.
(** [randomUUID n] is the value of the [n]-th call of [crypto.randomUUID]. *)
Variable randomUUID : nat -> list N.

Definition getSessionId (b : Browser) : list N * Browser :=
  let sessionId := localStorage b !! js "cart_session_id" in
  match sessionId with
  | Some s =>
      if falsy s then
        let fresh := randomUUID (uuids_drawn b) in
        (fresh,
         {| localStorage := <[js "cart_session_id" := fresh]> (localStorage b);
            uuids_drawn := S (uuids_drawn b) |})
      else (s, b)
  | None =>
      let fresh := randomUUID (uuids_drawn b) in
      (fresh,
       {| localStorage := <[js "cart_session_id" := fresh]> (localStorage b);
          uuids_drawn := S (uuids_drawn b) |})
  end.

(** [k] calls in a row, nothing else touching the storage in between:
    the values returned and the final browser state. *)
Fixpoint getSessionId_times (k : nat) (b : Browser) : list (list N) * Browser :=
  match k with
  | O => ([], b)
  | S k' =>
      let '(sid, b1) := getSessionId b in
      let '(rest, b2) := getSessionId_times k' b1 in
      (sid :: rest, b2)
  end.

End WithRandom.
End Session.

Module Store.
Import JS Order CartTypes Eff.
Local Open Scope eff_scope.

Record CartStore := {
  cart : option Cart;
  isLoading : bool;
  isOpen : bool;
  sessionId : option (list N)
}.

Definition with_cart (c : option Cart) (s : CartStore) : CartStore :=
  {| cart := c; isLoading := isLoading s; isOpen := isOpen s;
     sessionId := sessionId s |}.
Definition with_isLoading (b : bool) (s : CartStore) : CartStore :=
  {| cart := cart s; isLoading := b; isOpen := isOpen s;
     sessionId := sessionId s |}.
Definition with_isOpen (b : bool) (s : CartStore) : CartStore :=
  {| cart := cart s; isLoading := isLoading s; isOpen := b;
     sessionId := sessionId s |}.

Section WithServer.
Variable srv : Server.

Definition fetchCart : M CartStore unit :=
  set (with_isLoading true) ;;
  try_catch
    (let* st := get in
     let sessionId := sessionId st in
     let* data := request (GetCart sessionId) (fun l => srv_get_cart srv l sessionId) in
     set (fun s => with_isLoading false (with_cart (Some data) s)))
    (fun error => set (with_isLoading false)).

Definition addItem (variantId quantity : Z) : M CartStore unit :=
  set (with_isLoading true) ;;
  try_catch
    (let* st := get in
     let sessionId := sessionId st in
     let* response :=
       request (PostCartItems sessionId variantId quantity)
         (fun l => srv_post_cart_items srv l sessionId variantId quantity) in
     fetchCart ;;
     (* [console.log('Item added to cart:', response.data.message)] *)
     match response with
     | Some data => ret (added_message data)
     | None => throw type_error
     end ;;
     set (fun s => with_isOpen true (with_isLoading false s)))
    (fun error =>
       set (with_isLoading false) ;;
       let errorMessage :=
         or_else (err_error error) (js "Failed to add item to cart") in
       emit (EAlert errorMessage) ;;
       throw error).

Definition updateQuantity (cartItemId quantity : Z) : M CartStore unit :=
  set (with_isLoading true) ;;
  try_catch
    (let* st := get in
     let sessionId := sessionId st in
     request (PutCartItem sessionId cartItemId quantity)
       (fun l => srv_put_cart_item srv l sessionId cartItemId quantity) ;;
     fetchCart ;;
     set (with_isLoading false))
    (fun error =>
       set (with_isLoading false) ;;
       let errorMessage :=
         or_else (err_error error) (js "Failed to update quantity") in
       emit (EAlert errorMessage) ;;
       throw error).

Definition removeItem (cartItemId : Z) : M CartStore unit :=
  set (with_isLoading true) ;;
  try_catch
    (let* st := get in
     let sessionId := sessionId st in
     request (DeleteCartItem sessionId cartItemId)
       (fun l => srv_delete_cart_item srv l sessionId cartItemId) ;;
     fetchCart ;;
     set (with_isLoading false))
    (fun error => set (with_isLoading false) ;; throw error).

Definition clearCart : M CartStore unit :=
  set (with_isLoading true) ;;
  try_catch
    (let* st := get in
     let sessionId := sessionId st in
     request (DeleteCart sessionId) (fun l => srv_delete_cart srv l sessionId) ;;
     set (fun s => with_isLoading false (with_cart None s)))
    (fun error => set (with_isLoading false) ;; throw error).

(** The four mutating actions of the store, as one family. *)
Inductive Mutation :=
| MAddItem (variantId quantity : Z)
| MUpdateQuantity (cartItemId quantity : Z)
| MRemoveItem (cartItemId : Z)
| MClearCart.

Definition mutate (m : Mutation) : M CartStore unit :=
  match m with
  | MAddItem v q => addItem v q
  | MUpdateQuantity i q => updateQuantity i q
  | MRemoveItem i => removeItem i
  | MClearCart => clearCart
  end.

(** The request a mutation sends to change the server-side cart. *)
Definition mutation_request (m : Mutation) (sid : option (list N)) : Request :=
  match m with
  | MAddItem v q => PostCartItems sid v q
  | MUpdateQuantity i q => PutCartItem sid i q
  | MRemoveItem i => DeleteCartItem sid i
  | MClearCart => DeleteCart sid
  end.

(** The error with which the server rejects that request, if it does. *)
Definition mutation_rejection (m : Mutation) (l : list Event)
  (sid : option (list N)) : option ApiError :=
  let failure {A} (r : ApiError + A) :=
    match r with inl e => Some e | inr _ => None end in
  match m with
  | MAddItem v q => failure (srv_post_cart_items srv l sid v q)
  | MUpdateQuantity i q => failure (srv_put_cart_item srv l sid i q)
  | MRemoveItem i => failure (srv_delete_cart_item srv l sid i)
  | MClearCart => failure (srv_delete_cart srv l sid)
  end.

End WithServer.

(** [cart?.item_count || 0] *)
Definition itemCount (s : CartStore) : Z :=
  num_or_zero (option_map item_count (cart s)).

(** [(cart?.subtotal_cents || 0) / 100]: the quotient, as a rational. *)
Definition subtotal (s : CartStore) : Q :=
  Qmake (num_or_zero (option_map subtotal_cents (cart s))) 100.

Definition is_delete (r : Request) : bool :=
  match r with
  | DeleteCart _ | DeleteCartItem _ _ => true
  | _ => false
  end.

Definition is_get_cart (r : Request) : bool :=
  match r with GetCart _ => true | _ => false end.

End Store.

(* ===================================================================== *)
(** ** Checkout page (second part of [store/cartStore.ts]) *)
(* ===================================================================== *)

Module Checkout.
Import JS Eff.
Local Open Scope eff_scope.

Inductive DeliveryMethod := pickup | shipping.

(** The [useState] cells of [CheckoutPage], with the values it reads from
    the [useAuth] hook. *)
Record CheckoutState := {
  appConfig : option Order.AppConfig;
  configLoading : bool;
  name : list N;
  email : list N;
  phone : list N;
  deliveryMethod : DeliveryMethod;
  shippingAddress : Order.ShippingAddress;
  shippingMethod : option Order.ShippingMethod;
  availableShippingRates : list Order.ShippingMethod;
  calculatingShipping : bool;
  shippingError : option (list N);
  loading : bool;
  error : option (list N);
  isSignedIn : bool;
  authLoaded : bool
}.

Definition setShippingMethod (v : option Order.ShippingMethod)
  (p : CheckoutState) : CheckoutState :=
  {| appConfig := appConfig p; configLoading := configLoading p;
     name := name p; email := email p; phone := phone p;
     deliveryMethod := deliveryMethod p; shippingAddress := shippingAddress p;
     shippingMethod := v;
     availableShippingRates := availableShippingRates p;
     calculatingShipping := calculatingShipping p;
     shippingError := shippingError p; loading := loading p;
     error := error p; isSignedIn := isSignedIn p; authLoaded := authLoaded p |}.

Definition setAvailableShippingRates (v : list Order.ShippingMethod)
  (p : CheckoutState) : CheckoutState :=
  {| appConfig := appConfig p; configLoading := configLoading p;
     name := name p; email := email p; phone := phone p;
     deliveryMethod := deliveryMethod p; shippingAddress := shippingAddress p;
     shippingMethod := shippingMethod p;
     availableShippingRates := v;
     calculatingShipping := calculatingShipping p;
     shippingError := shippingError p; loading := loading p;
     error := error p; isSignedIn := isSignedIn p; authLoaded := authLoaded p |}.

Definition setCalculatingShipping (v : bool)
  (p : CheckoutState) : CheckoutState :=
  {| appConfig := appConfig p; configLoading := configLoading p;
     name := name p; email := email p; phone := phone p;
     deliveryMethod := deliveryMethod p; shippingAddress := shippingAddress p;
     shippingMethod := shippingMethod p;
     availableShippingRates := availableShippingRates p;
     calculatingShipping := v;
     shippingError := shippingError p; loading := loading p;
     error := error p; isSignedIn := isSignedIn p; authLoaded := authLoaded p |}.

Definition setShippingError (v : option (list N))
  (p : CheckoutState) : CheckoutState :=
  {| appConfig := appConfig p; configLoading := configLoading p;
     name := name p; email := email p; phone := phone p;
     deliveryMethod := deliveryMethod p; shippingAddress := shippingAddress p;
     shippingMethod := shippingMethod p;
     availableShippingRates := availableShippingRates p;
     calculatingShipping := calculatingShipping p;
     shippingError := v; loading := loading p;
     error := error p; isSignedIn := isSignedIn p; authLoaded := authLoaded p |}.

Definition setLoading (v : bool) (p : CheckoutState) : CheckoutState :=
  {| appConfig := appConfig p; configLoading := configLoading p;
     name := name p; email := email p; phone := phone p;
     deliveryMethod := deliveryMethod p; shippingAddress := shippingAddress p;
     shippingMethod := shippingMethod p;
     availableShippingRates := availableShippingRates p;
     calculatingShipping := calculatingShipping p;
     shippingError := shippingError p; loading := v;
     error := error p; isSignedIn := isSignedIn p; authLoaded := authLoaded p |}.

Definition setError (v : option (list N)) (p : CheckoutState) : CheckoutState :=
  {| appConfig := appConfig p; configLoading := configLoading p;
     name := name p; email := email p; phone := phone p;
     deliveryMethod := deliveryMethod p; shippingAddress := shippingAddress p;
     shippingMethod := shippingMethod p;
     availableShippingRates := availableShippingRates p;
     calculatingShipping := calculatingShipping p;
     shippingError := shippingError p; loading := loading p;
     error := v; isSignedIn := isSignedIn p; authLoaded := authLoaded p |}.

Definition setShippingAddress (v : Order.ShippingAddress)
  (p : CheckoutState) : CheckoutState :=
  {| appConfig := appConfig p; configLoading := configLoading p;
     name := name p; email := email p; phone := phone p;
     deliveryMethod := deliveryMethod p; shippingAddress := v;
     shippingMethod := shippingMethod p;
     availableShippingRates := availableShippingRates p;
     calculatingShipping := calculatingShipping p;
     shippingError := shippingError p; loading := loading p;
     error := error p; isSignedIn := isSignedIn p; authLoaded := authLoaded p |}.

Definition with_street2_country (s2 c : option (list N))
  (a : Order.ShippingAddress) : Order.ShippingAddress :=
  {| Order.name := Order.name a; Order.street1 := Order.street1 a;
     Order.street2 := s2; Order.city := Order.city a;
     Order.state := Order.state a; Order.zip := Order.zip a;
     Order.country := c |}.

(** The page together with the cart store it subscribes to. *)
Record App := { store : Store.CartStore; page : CheckoutState }.

Definition on_page (f : CheckoutState -> CheckoutState) (a : App) : App :=
  {| store := store a; page := f (page a) |}.

Definition on_store {A} (m : M Store.CartStore A) : M App A :=
  lift store (fun s a => {| store := s; page := page a |}) m.

(** [isFormValid], over the state of the current render. *)
Definition isFormValid (p : CheckoutState) : bool :=
  let hasContactInfo :=
    (nonblank (name p) && nonblank (email p) && nonblank (phone p))%bool in
  match deliveryMethod p with
  | pickup => hasContactInfo
  | shipping =>
      let hasAddress :=
        (nonblank (Order.street1 (shippingAddress p))
         && nonblank (Order.city (shippingAddress p))
         && nonblank (Order.state (shippingAddress p))
         && nonblank (Order.zip (shippingAddress p)))%bool in
      (hasContactInfo && hasAddress
       && match shippingMethod p with Some _ => true | None => false end)%bool
  end.

(** The address literal sent with a pickup order. *)
Definition pickup_address (name : list N) : Order.ShippingAddress :=
  {| Order.name := name;
     Order.street1 := js "Pickup";
     Order.street2 := None;
     Order.city := js "Hag" ++ [229%N] ++ js "t" ++ [241%N] ++ js "a";
     Order.state := js "GU";
     Order.zip := js "96910";
     Order.country := Some (js "US") |}.

(** The zero-cost pseudo-rate sent with a pickup order. *)
Definition pickup_method : Order.ShippingMethod :=
  {| Order.carrier := js "PICKUP";
     Order.service := js "In-Store Pickup";
     Order.rate_cents := 0;
     Order.rate_id := None;
     Order.delivery_days := None |}.

(** The message the [catch] block of [handleSubmit] hands to [setError]. *)
Definition submit_error_message (err : ApiError) : list N :=
  match err_error err, err_issues err with
  | Some e, Some issues =>
      if bool_decide (e = js "Cart validation failed") then
        let errorMessages :=
          join [newline]
            (List.map (fun issue => [bullet] ++ js " " ++ message issue) issues) in
        js "Unable to complete order:" ++ [newline] ++ errorMessages
      else or_else (err_error err) (js "An error occurred. Please try again.")
  | _, _ => or_else (err_error err) (js "An error occurred. Please try again.")
  end.

(** Names for the parts of the message built by [submit_error_message]. *)
Definition header : list N := js "Unable to complete order:".
Definition fallback : list N := js "An error occurred. Please try again.".
Definition bullet_line (issue : Issue) : list N :=
  [bullet] ++ js " " ++ message issue.

(** The order of [handleSubmit]: contact fields and payment descriptor,
    then the shipping details or the pickup literals. There is none when
    shipping is chosen and no method is selected. *)
Definition build_order (p : CheckoutState) : option Order.CreateOrderRequest :=
  let is_test :=
    match appConfig p with
    | Some c => match Order.app_mode c with
                | Order.test => true
                | Order.production => false
                end
    | None => false
    end in
  let payment :=
    {| Order.token := if is_test then None else Some (js "tok_test_placeholder");
       Order.type := if is_test then js "test" else js "stripe" |} in
  let orderData address method :=
    {| Order.email := email p; Order.phone := phone p;
       Order.shipping_address := address;
       Order.shipping_method := method;
       Order.payment_method := payment |} in
  match deliveryMethod p with
  | shipping =>
      match shippingMethod p with
      | None => None
      | Some method =>
          Some (orderData
            {| Order.name := name p;
               Order.street1 := Order.street1 (shippingAddress p);
               Order.street2 := Order.street2 (shippingAddress p);
               Order.city := Order.city (shippingAddress p);
               Order.state := Order.state (shippingAddress p);
               Order.zip := Order.zip (shippingAddress p);
               Order.country := Order.country (shippingAddress p) |}
            method)
      end
  | pickup => Some (orderData (pickup_address (name p)) pickup_method)
  end.

(** The address sent to the rate API by [handleCalculateShipping]. *)
Definition rates_address (p : CheckoutState) : Order.ShippingAddress :=
  {| Order.name := name p;
     Order.street1 := Order.street1 (shippingAddress p);
     Order.street2 := Order.street2 (shippingAddress p);
     Order.city := Order.city (shippingAddress p);
     Order.state := Order.state (shippingAddress p);
     Order.zip := Order.zip (shippingAddress p);
     Order.country :=
       Some (or_else (Order.country (shippingAddress p)) (js "US")) |}.

Section WithServer.
Variable srv : Server.

(** [let token = null; if (isSignedIn && authLoaded) token = await getToken();] *)
Definition acquire_token (p : CheckoutState) : M App (option (list N)) :=
  if (isSignedIn p && authLoaded p)%bool
  then request GetToken (srv_get_token srv)
  else ret None.

Definition handleCalculateShipping : M App unit :=
  let* a := get in
  let p := page a in
  let sessionId := Store.sessionId (store a) in
  if (falsy (Order.street1 (shippingAddress p))
      || falsy (Order.city (shippingAddress p))
      || falsy (Order.state (shippingAddress p))
      || falsy (Order.zip (shippingAddress p)))%bool
  then
    set (on_page (setShippingError
      (Some (js "Please fill out all required shipping address fields"))))
  else
    set (on_page (setCalculatingShipping true)) ;;
    set (on_page (setShippingError None)) ;;
    finally
      (try_catch
         (let* token := acquire_token p in
          let address := rates_address p in
          let* rates :=
            request (CalculateRates address sessionId token)
              (fun l => srv_calculate_rates srv l address sessionId token) in
          set (on_page (setAvailableShippingRates rates)) ;;
          match rates with
          | first :: _ => set (on_page (setShippingMethod (Some first)))
          | [] => ret tt
          end)
         (fun err =>
            set (on_page (setShippingError
              (Some (or_else (err_error err)
                 (js "Failed to calculate shipping. Please try again.")))))))
      (on_page (setCalculatingShipping false)).

Definition handleSubmit : M App unit :=
  let* a := get in
  let p := page a in
  let sessionId := Store.sessionId (store a) in
  set (on_page (setError None)) ;;
  set (on_page (setLoading true)) ;;
  finally
    (try_catch
       (let* token := acquire_token p in
        match build_order p with
        | None =>
            (* early [return] from inside the [try] *)
            set (on_page (setError (Some (js "Please select a shipping method")))) ;;
            set (on_page (setLoading false))
        | Some orderData =>
            let* response :=
              request (CreateOrder orderData token sessionId)
                (fun l => srv_create_order srv l orderData token sessionId) in
            if Order.success response then
              on_store (Store.clearCart srv) ;;
              emit (ENavigateOrder (Order.order_id response))
            else
              set (on_page (setError
                (Some (js "Failed to create order. Please try again."))))
        end)
       (fun err => set (on_page (setError (Some (submit_error_message err))))))
    (on_page (setLoading false)).

(** The token step succeeds from log [l]: it yields [token] and leaves the
    log at [l1]. *)
Definition token_granted (p : CheckoutState) (l : list Event)
  (token : option (list N)) (l1 : list Event) : Prop :=
  if (isSignedIn p && authLoaded p)%bool
  then srv_get_token srv l = inr token /\ l1 = l ++ [EReq GetToken]
  else token = None /\ l1 = l.

End WithServer.
End Checkout.

(* ===================================================================== *)
(** ** Admin import page: status polling *)
(* ===================================================================== *)

Module ImportPage.

Inductive Status := pending | processing | completed | failed.

(** The fields of [Import] that the polling logic reads. *)
Record Import := {
  id : Z;
  status : Status;
  filename : list N
}.

(** [['pending', 'processing'].includes(status)] *)
Definition is_active (s : Status) : bool :=
  match s with pending | processing => true | _ => false end.

(** [['completed', 'failed'].includes(status)] *)
Definition is_terminal (s : Status) : bool :=
  match s with completed | failed => true | _ => false end.

(** The page state that polling touches, the calls of [fetchImportStatus]
    that are still awaiting their answer (each with the [importId] it asked
    for), and two counters: how often the interval has called
    [fetchImportStatus] and how often [fetchImports] has been called. *)
Record Page := {
  currentImport : option Import;
  imports : list Import;
  in_flight : list Z;
  status_requests : nat;
  list_refreshes : nat
}.

(** The polling effect keeps an interval exactly while the watched job
    exists and is pending or processing; it is torn down and set up again
    whenever [currentImport] changes. *)
Definition polling (p : Page) : bool :=
  match currentImport p with
  | Some c => is_active (status c)
  | None => false
  end.

Inductive Event :=
| Tick                                   (* the 3-second interval fires *)
| StatusResponse (k : nat) (importData : Import)
                                         (* the [k]-th pending request resolves *)
| StatusFailure (k : nat).               (* the [k]-th pending request rejects *)

(** [fetchImports()]: one more request for the job list. Its answer only
    replaces [imports], which polling never reads, so it is counted and not
    followed further. *)
Definition fetchImports (p : Page) : Page :=
  {| currentImport := currentImport p; imports := imports p;
     in_flight := in_flight p; status_requests := status_requests p;
     list_refreshes := S (list_refreshes p) |}.

(** First half of [fetchImportStatus]: the request goes out. *)
Definition fetchImportStatus_call (importId : Z) (p : Page) : Page :=
  {| currentImport := currentImport p; imports := imports p;
     in_flight := in_flight p ++ [importId];
     status_requests := S (status_requests p);
     list_refreshes := list_refreshes p |}.

(** Second half of [fetchImportStatus]: the code after the [await]. *)
Definition fetchImportStatus_resolved (importId : Z) (importData : Import) (p : Page)
  : Page :=
  let p1 :=
    {| currentImport := Some importData;
       imports :=
         List.map (fun imp => if Z.eqb (id imp) importId then importData else imp)
           (imports p);
       in_flight := in_flight p; status_requests := status_requests p;
       list_refreshes := list_refreshes p |} in
  if is_terminal (status importData) then
    fetchImports
      {| currentImport := None; imports := imports p1;
         in_flight := in_flight p1; status_requests := status_requests p1;
         list_refreshes := list_refreshes p1 |}
  else p1.

Definition drop_request (k : nat) (p : Page) : Page :=
  {| currentImport := currentImport p; imports := imports p;
     in_flight := delete k (in_flight p);
     status_requests := status_requests p;
     list_refreshes := list_refreshes p |}.

(** One event of the page; [None] when the event cannot happen in this
    state (no interval to fire, no such request pending). *)
Definition step (p : Page) (e : Event) : option Page :=
  match e with
  | Tick =>
      match currentImport p with
      | Some c =>
          if is_active (status c) then Some (fetchImportStatus_call (id c) p)
          else None
      | None => None
      end
  | StatusResponse k importData =>
      match in_flight p !! k with
      | Some importId =>
          Some (fetchImportStatus_resolved importId importData (drop_request k p))
      | None => None
      end
  | StatusFailure k =>
      match in_flight p !! k with
      | Some _ => Some (drop_request k p)
      | None => None
      end
  end.

Fixpoint run (p : Page) (es : list Event) : option Page :=
  match es with
  | [] => Some p
  | e :: r =>
      match step p e with
      | Some p' => run p' r
      | None => None
      end
  end.

(** A status response that reports a finished job. *)
Definition reports_terminal (e : Event) : bool :=
  match e with
  | StatusResponse _ d => is_terminal (status d)
  | _ => false
  end.

(** Polling starts: job [c] is watched, nothing is awaited yet and the
    counters start at zero. *)
Definition watching (c : Import) (l : list Import) : Page :=
  {| currentImport := Some c; imports := l; in_flight := [];
     status_requests := 0; list_refreshes := 0 |}.

(** One poll whose answer arrives before the interval fires again. *)
Definition poll_round (answer : option Import) : list Event :=
  match answer with
  | Some d => [Tick; StatusResponse 0 d]
  | None => [Tick; StatusFailure 0]
  end.

(** An answer that does not end polling: a failure, or a job still
    pending or processing. *)
Definition keeps_polling (answer : option Import) : bool :=
  match answer with
  | Some d => is_active (status d)
  | None => true
  end.

(** The events of a sequence of polls, each answered before the next. *)
Definition poll_rounds (answers : list (option Import)) : list Event :=
  concat (List.map poll_round answers).

Definition job (s : Status) : Import :=
  {| id := 12; status := s; filename := JS.js "products.csv" |}.

(** Two polls go out before the first answer arrives; both answers report
    the finished job. *)
Definition overlapping_polls : list Event :=
  [Tick; Tick; StatusResponse 0 (job completed); StatusResponse 0 (job completed)].

(** Two polls go out; the answer to the second (finished) overtakes the
    answer to the first (still processing); the interval then fires again. *)
Definition overtaken_polls : list Event :=
  [Tick; Tick; StatusResponse 1 (job completed);
   StatusResponse 0 (job processing); Tick].

End ImportPage.

(* ===================================================================== *)
(** ** Sample servers and states *)
(* ===================================================================== *)

Module Samples.
Import JS Eff.

Definition network_error : ApiError :=
  {| err_error := None; err_issues := None |}.

Definition added : ItemAdded :=
  {| added_message := Some (js "Added") |}.

Definition out_of_stock : ApiError :=
  {| err_error := Some (js "Insufficient stock"); err_issues := None |}.

Definition cart1 : CartTypes.Cart :=
  {| CartTypes.items :=
       [{| CartTypes.item_id := 7; CartTypes.product_variant_id := 3;
           CartTypes.quantity := 2; CartTypes.item_subtotal_cents := 5000 |}];
     CartTypes.item_count := 2;
     CartTypes.subtotal_cents := 5000 |}.

Definition rate_usps : Order.ShippingMethod :=
  {| Order.carrier := js "USPS"; Order.service := js "Priority";
     Order.rate_cents := 895; Order.rate_id := Some (js "rate_1");
     Order.delivery_days := Some 3 |}.

Definition rate_ups : Order.ShippingMethod :=
  {| Order.carrier := js "UPS"; Order.service := js "Ground";
     Order.rate_cents := 1250; Order.rate_id := Some (js "rate_2");
     Order.delivery_days := Some 5 |}.

(** Every call is rejected without a response body. *)
Definition srv_down : Server :=
  {| srv_get_cart := fun _ _ => inl network_error;
     srv_post_cart_items := fun _ _ _ _ => inl out_of_stock;
     srv_put_cart_item := fun _ _ _ _ => inl network_error;
     srv_delete_cart_item := fun _ _ _ => inl network_error;
     srv_delete_cart := fun _ _ => inl network_error;
     srv_get_token := fun _ => inl network_error;
     srv_calculate_rates := fun _ _ _ _ => inl network_error;
     srv_create_order := fun _ _ _ _ => inl network_error |}.

(** Every call succeeds. *)
Definition srv_up : Server :=
  {| srv_get_cart := fun _ _ => inr cart1;
     srv_post_cart_items := fun _ _ _ _ => inr (Some added);
     srv_put_cart_item := fun _ _ _ _ => inr tt;
     srv_delete_cart_item := fun _ _ _ => inr tt;
     srv_delete_cart := fun _ _ => inr tt;
     srv_get_token := fun _ => inr (Some (js "jwt"));
     srv_calculate_rates := fun _ _ _ _ => inr [rate_usps; rate_ups];
     srv_create_order :=
       fun _ _ _ _ => inr {| Order.success := true; Order.order_id := 41 |} |}.

(** Mutations succeed, but the cart cannot be read back. *)
Definition srv_no_read : Server :=
  {| srv_get_cart := fun _ _ => inl network_error;
     srv_post_cart_items := fun _ _ _ _ => inr (Some added);
     srv_put_cart_item := fun _ _ _ _ => inr tt;
     srv_delete_cart_item := fun _ _ _ => inr tt;
     srv_delete_cart := fun _ _ => inr tt;
     srv_get_token := fun _ => inr None;
     srv_calculate_rates := fun _ _ _ _ => inr [];
     srv_create_order :=
       fun _ _ _ _ => inr {| Order.success := true; Order.order_id := 41 |} |}.

(** A generator whose [n]-th identifier ends in the last digit of [n]. *)
Definition uuid_stream (n : nat) : list N :=
  js "3b241101-e2bb-4255-8caf-4136c566a96" ++ [(48 + N.of_nat (n mod 10))%N].

Definition fresh_browser : Session.Browser :=
  {| Session.localStorage := ∅; Session.uuids_drawn := 0 |}.

Definition validation_failed : ApiError :=
  {| err_error := Some (js "Cart validation failed");
     err_issues :=
       Some [ {| message := js "Blue Tee (M) is no longer available" |};
              {| message := js "Only 1 of Cap left in stock" |} ] |}.

Definition store1 : Store.CartStore :=
  {| Store.cart := Some cart1; Store.isLoading := false;
     Store.isOpen := false; Store.sessionId := Some (js "sess-1") |}.

Definition address1 : Order.ShippingAddress :=
  {| Order.name := []; Order.street1 := js "1 Marine Dr";
     Order.street2 := Some []; Order.city := js "Tamuning";
     Order.state := js "GU"; Order.zip := js "96913";
     Order.country := Some (js "US") |}.

Definition page1 : Checkout.CheckoutState :=
  {| Checkout.appConfig :=
       Some {| Order.app_mode := Order.test; Order.stripe_enabled := false |};
     Checkout.configLoading := false;
     Checkout.name := js "Ana"; Checkout.email := js "ana@example.com";
     Checkout.phone := js "671-555-0101";
     Checkout.deliveryMethod := Checkout.shipping;
     Checkout.shippingAddress := address1;
     Checkout.shippingMethod := None;
     Checkout.availableShippingRates := [];
     Checkout.calculatingShipping := false;
     Checkout.shippingError := None;
     Checkout.loading := false;
     Checkout.error := None;
     Checkout.isSignedIn := false;
     Checkout.authLoaded := true |}.

Definition app1 : Checkout.App :=
  {| Checkout.store := store1; Checkout.page := page1 |}.

End Samples.

(* ===================================================================== *)
(** ** Further parts of the store and of the checkout page *)
(* ===================================================================== *)

Module Panel.
Import Store.

(** [toggleCart], [openCart], [closeCart]: the cart drawer. *)
Definition toggleCart (s : CartStore) : CartStore :=
  with_isOpen (negb (isOpen s)) s.
Definition openCart (s : CartStore) : CartStore := with_isOpen true s.
Definition closeCart (s : CartStore) : CartStore := with_isOpen false s.

(** The asynchronous actions of the store, as one family. *)
Inductive Action :=
| Fetch
| Mutate (m : Mutation).

Definition perform (srv : Eff.Server) (act : Action) : Eff.M CartStore unit :=
  match act with
  | Fetch => fetchCart srv
  | Mutate m => mutate srv m
  end.

(** The mutations that read the cart back after changing it. *)
Definition refetches (m : Mutation) : bool :=
  match m with MClearCart => false | _ => true end.

(** The server accepts the request of a mutation and, for [addItem], whose
    code reads the response body, answers with a body. *)
Definition accepted (srv : Eff.Server) (m : Mutation) (l : list Eff.Event)
  (sid : option (list N)) : bool :=
  match m with
  | MAddItem v q =>
      match Eff.srv_post_cart_items srv l sid v q with
      | inr (Some _) => true
      | _ => false
      end
  | _ =>
      match mutation_rejection srv m l sid with
      | None => true
      | Some _ => false
      end
  end.

End Panel.

Module CheckoutView.
Import JS Eff Checkout.

Definition setDeliveryMethod (v : DeliveryMethod)
  (p : CheckoutState) : CheckoutState :=
  {| appConfig := appConfig p; configLoading := configLoading p;
     name := name p; email := email p; phone := phone p;
     deliveryMethod := v; shippingAddress := shippingAddress p;
     shippingMethod := shippingMethod p;
     availableShippingRates := availableShippingRates p;
     calculatingShipping := calculatingShipping p;
     shippingError := shippingError p; loading := loading p;
     error := error p; isSignedIn := isSignedIn p; authLoaded := authLoaded p |}.

(** [onClick] of the 'Ship to Address' button. *)
Definition choose_shipping (p : CheckoutState) : CheckoutState :=
  setAvailableShippingRates [] (setShippingMethod None
    (setDeliveryMethod shipping p)).

(** [onClick] of the pickup button. *)
Definition choose_pickup (p : CheckoutState) : CheckoutState :=
  setShippingMethod None (setDeliveryMethod pickup p).

(** [const items = cart?.items || []] *)
Definition items (a : App) : list CartTypes.CartItem :=
  match Store.cart (store a) with
  | Some c => CartTypes.items c
  | None => []
  end.

(** [const subtotalCents = cart?.subtotal_cents || 0] *)
Definition subtotalCents (a : App) : Z :=
  num_or_zero (option_map CartTypes.subtotal_cents (Store.cart (store a))).

(** [deliveryMethod === 'pickup' ? 0 : (shippingMethod?.rate_cents || 0)] *)
Definition shippingCostCents (p : CheckoutState) : Z :=
  match deliveryMethod p with
  | pickup => 0
  | shipping => num_or_zero (option_map Order.rate_cents (shippingMethod p))
  end.

Definition totalCents (a : App) : Z :=
  subtotalCents a + shippingCostCents (page a).

(** The condition of the redirect effect:
    [!cartLoading && cart !== null && items.length === 0 && !configLoading]. *)
Definition redirects (a : App) : bool :=
  (negb (Store.isLoading (store a))
   && match Store.cart (store a) with Some _ => true | None => false end
   && Nat.eqb (length (items a)) 0
   && negb (configLoading (page a)))%bool.

(** The part of the page the customer typed or picked. *)
Definition form_of (p : CheckoutState) :=
  (name p, email p, phone p, deliveryMethod p, shippingAddress p,
   shippingMethod p, availableShippingRates p).

(** None of the four address fields that the rate lookup checks is the
    empty string. *)
Definition address_complete (p : CheckoutState) : Prop :=
  Order.street1 (shippingAddress p) <> []
  /\ Order.city (shippingAddress p) <> []
  /\ Order.state (shippingAddress p) <> []
  /\ Order.zip (shippingAddress p) <> [].

Definition is_create_order (r : Request) : bool :=
  match r with CreateOrder _ _ _ => true | _ => false end.

Definition is_navigation (e : Event) : bool :=
  match e with ENavigateOrder _ => true | _ => false end.

End CheckoutView.

Module MoreSamples.
Import JS Eff.

(** Orders are created, but the cart cannot be cleared afterwards. *)
Definition srv_no_clear : Server :=
  {| srv_get_cart := fun _ _ => inr Samples.cart1;
     srv_post_cart_items := fun _ _ _ _ => inr (Some Samples.added);
     srv_put_cart_item := fun _ _ _ _ => inr tt;
     srv_delete_cart_item := fun _ _ _ => inr tt;
     srv_delete_cart := fun _ _ => inl Samples.network_error;
     srv_get_token := fun _ => inr (Some (js "jwt"));
     srv_calculate_rates := fun _ _ _ _ => inl Samples.network_error;
     srv_create_order :=
       fun _ _ _ _ => inr {| Order.success := true; Order.order_id := 41 |} |}.


(** The order endpoint answers, but without success. *)
Definition srv_declines : Server :=
  {| srv_get_cart := fun _ _ => inr Samples.cart1;
     srv_post_cart_items := fun _ _ _ _ => inr (Some Samples.added);
     srv_put_cart_item := fun _ _ _ _ => inr tt;
     srv_delete_cart_item := fun _ _ _ => inr tt;
     srv_delete_cart := fun _ _ => inr tt;
     srv_get_token := fun _ => inr (Some (js "jwt"));
     srv_calculate_rates := fun _ _ _ _ => inr [];
     srv_create_order :=
       fun _ _ _ _ => inr {| Order.success := false; Order.order_id := 0 |} |}.

(** The sample page with pickup chosen, and with a rate selected. *)
Definition page_pickup : Checkout.CheckoutState :=
  CheckoutView.choose_pickup Samples.page1.

Definition page_rated : Checkout.CheckoutState :=
  Checkout.setAvailableShippingRates [Samples.rate_usps; Samples.rate_ups]
    (Checkout.setShippingMethod (Some Samples.rate_ups) Samples.page1).

Definition app_pickup : Checkout.App :=
  {| Checkout.store := Samples.store1; Checkout.page := page_pickup |}.

Definition app_rated : Checkout.App :=
  {| Checkout.store := Samples.store1; Checkout.page := page_rated |}.

Definition order_pickup : Order.CreateOrderRequest :=
  {| Order.email := js "ana@example.com"; Order.phone := js "671-555-0101";
     Order.shipping_address := Checkout.pickup_address (js "Ana");
     Order.shipping_method := Checkout.pickup_method;
     Order.payment_method :=
       {| Order.token := None; Order.type := js "test" |} |}.

End MoreSamples.

(* ===================================================================== *)
(** ** More of the JavaScript library *)
(* ===================================================================== *)

Module JSMore.
Import JS.

(** [String.prototype.startsWith] *)
Fixpoint startsWith (s sub : list N) : bool :=
  match sub, s with
  | [], _ => true
  | _ :: _, [] => false
  | c :: sub', d :: s' => (N.eqb c d && startsWith s' sub')%bool
  end.

(** [String.prototype.includes] *)
Fixpoint includes (s sub : list N) : bool :=
  (startsWith s sub
   || match s with
      | [] => false
      | _ :: r => includes r sub
      end)%bool.

(** [Array.prototype.includes] on an array of strings. *)
Definition array_includes (l : list (list N)) (x : list N) : bool :=
  bool_decide (x ∈ l).

(** A relative index of [Array.prototype.slice], clamped to the array. *)
Definition clamp_index (len i : Z) : Z :=
  if Z.ltb i 0 then Z.max (len + i) 0 else Z.min i len.

(** [Array.prototype.slice(start, end)] *)
Definition slice {A} (l : list A) (start stop : Z) : list A :=
  let len := Z.of_nat (length l) in
  let k := clamp_index len start in
  let final := clamp_index len stop in
  take (Z.to_nat (final - k)) (drop (Z.to_nat k) l).




(** [Number.prototype.toString] and template interpolation of an integer
    that [prints_plain]: decimal digits, with a minus sign. Outside that
    range the text below is not what JavaScript prints, and nothing is
    stated about it. *)
Definition number_to_string (z : Z) : list N :=
  js (NilZero.string_of_int (Z.to_int z)).

End JSMore.

(* ===================================================================== *)
(** ** Admin products page: list, filters, pages, stock column *)
(* ===================================================================== *)

Module ProductList.
Import JS JSMore.

Inductive InventoryLevel := none | product | variant.

Record Product := {
  id : Z;
  name : list N;
  slug : list N;
  description : list N;
  base_price_cents : Z;
  product_type : list N;
  published : bool;
  featured : bool;
  archived : bool;
  primary_image_url : option (list N);
  variant_count : Z;
  total_stock : Z;
  inventory_level : InventoryLevel;
  product_stock_quantity : option Z;
  total_variant_stock : option Z;
  in_stock : bool;
  actually_available : bool
}.

(** The value of the status filter: 'all', 'true', 'false' or 'archived'. *)
Inductive PublishedFilter := f_all | f_true | f_false | f_archived.

Definition filter_value (f : PublishedFilter) : list N :=
  match f with
  | f_all => js "all"
  | f_true => js "true"
  | f_false => js "false"
  | f_archived => js "archived"
  end.

(** [Boolean.prototype.toString] *)
Definition bool_toString (b : bool) : list N :=
  if b then js "true" else js "false".

Definition itemsPerPage : Z := 25.

Section WithLowerCase.
(** [String.prototype.toLowerCase], whose case tables are not modelled. *)
Variable toLowerCase : list N -> list N.

(** The predicate passed to [products.filter]. *)
Definition keep (searchQuery : list N) (filterPublished : PublishedFilter)
  (filterType : list N) (product : Product) : bool :=
  if (negb (falsy searchQuery)
      && negb (includes (toLowerCase (name product)) (toLowerCase searchQuery)))%bool
  then false
  else if
    match filterPublished with
    | f_archived => negb (archived product)
    | f_true | f_false =>
        (archived product
         || negb (bool_decide (bool_toString (published product)
                               = filter_value filterPublished)))%bool
    | f_all => archived product
    end
  then false
  else if (negb (bool_decide (filterType = js "all"))
           && negb (bool_decide (product_type product = filterType)))%bool
  then false
  else true.

Definition filteredProducts (products : list Product) (searchQuery : list N)
  (filterPublished : PublishedFilter) (filterType : list N) : list Product :=
  List.filter (keep searchQuery filterPublished filterType) products.

End WithLowerCase.

(** [Math.ceil(filteredProducts.length / itemsPerPage)] *)
Definition totalPages (filtered : list Product) : Z :=
  (Z.of_nat (length filtered) + (itemsPerPage - 1)) / itemsPerPage.

Definition paginatedProducts (filtered : list Product) (currentPage : Z)
  : list Product :=
  slice filtered ((currentPage - 1) * itemsPerPage) (currentPage * itemsPerPage).

(** The 'Previous' and 'Next' buttons. *)
Definition previous_page (currentPage : Z) : Z := Z.max 1 (currentPage - 1).
Definition next_page (filtered : list Product) (currentPage : Z) : Z :=
  Z.min (totalPages filtered) (currentPage + 1).

(** The two numbers of 'Showing x to y of n results'. *)
Definition showing_from (currentPage : Z) : Z :=
  (currentPage - 1) * itemsPerPage + 1.
Definition showing_to (filtered : list Product) (currentPage : Z) : Z :=
  Z.min (currentPage * itemsPerPage) (Z.of_nat (length filtered)).




End ProductList.

(* ===================================================================== *)
(** ** Variant manager: the size and colour options *)
(* ===================================================================== *)

Module VariantOptions.
Import JS JSMore.

(** The option cells of [VariantManager]. *)
Record Options := {
  sizes : list (list N);
  colors : list (list N);
  newSize : list N;
  newColor : list N
}.

Inductive Toast :=
| ToastSuccess (msg : list N)
| ToastError (msg : list N)
| ToastInfo (msg : list N).

Definition addSize (o : Options) : Options :=
  if (negb (falsy (trim (newSize o)))
      && negb (array_includes (sizes o) (trim (newSize o))))%bool
  then {| sizes := sizes o ++ [trim (newSize o)]; colors := colors o;
          newSize := []; newColor := newColor o |}
  else o.

Definition removeSize (size : list N) (o : Options) : Options :=
  {| sizes := List.filter (fun s => negb (bool_decide (s = size))) (sizes o);
     colors := colors o; newSize := newSize o; newColor := newColor o |}.

Definition addColor (o : Options) : Options :=
  if (negb (falsy (trim (newColor o)))
      && negb (array_includes (colors o) (trim (newColor o))))%bool
  then {| sizes := sizes o; colors := colors o ++ [trim (newColor o)];
          newSize := newSize o; newColor := [] |}
  else o.

Definition removeColor (color : list N) (o : Options) : Options :=
  {| sizes := sizes o;
     colors := List.filter (fun c => negb (bool_decide (c = color))) (colors o);
     newSize := newSize o; newColor := newColor o |}.

(** The keys of [SIZE_PRESETS] and of [COLOR_PRESETS]: the values the two
    preset dropdowns can pass. *)
Inductive SizePreset := S_Standard | S_Extended | S_Kids | S_OneSize.
Inductive ColorPreset := C_Basic | C_Extended | C_Hafaloha | C_Neutrals.

Definition size_preset_name (k : SizePreset) : list N :=
  match k with
  | S_Standard => js "Standard"
  | S_Extended => js "Extended"
  | S_Kids => js "Kids"
  | S_OneSize => js "One Size"
  end.

Definition color_preset_name (k : ColorPreset) : list N :=
  match k with
  | C_Basic => js "Basic"
  | C_Extended => js "Extended"
  | C_Hafaloha => js "Hafaloha"
  | C_Neutrals => js "Neutrals"
  end.

Definition SIZE_PRESETS (k : SizePreset) : list (list N) :=
  match k with
  | S_Standard => [js "Small"; js "Medium"; js "Large"; js "XL"]
  | S_Extended =>
      [js "XS"; js "Small"; js "Medium"; js "Large"; js "XL"; js "XXL";
       js "XXXL"]
  | S_Kids =>
      [js "2T"; js "3T"; js "4T"; js "Youth S"; js "Youth M"; js "Youth L"]
  | S_OneSize => [js "One Size"]
  end.

Definition COLOR_PRESETS (k : ColorPreset) : list (list N) :=
  match k with
  | C_Basic => [js "Black"; js "White"; js "Red"]
  | C_Extended =>
      [js "Black"; js "White"; js "Red"; js "Blue"; js "Green"; js "Yellow"]
  | C_Hafaloha => [js "Hafaloha Red"; js "Gold"; js "Black"; js "White"]
  | C_Neutrals => [js "Black"; js "White"; js "Gray"; js "Beige"; js "Navy"]
  end.

Definition applySizePreset (presetName : SizePreset) (o : Options)
  : Options * Toast :=
  let presetSizes := SIZE_PRESETS presetName in
  let newSizes :=
    List.filter (fun size => negb (array_includes (sizes o) size)) presetSizes in
  if Nat.ltb 0 (length newSizes) then
    ({| sizes := sizes o ++ newSizes; colors := colors o;
        newSize := newSize o; newColor := newColor o |},
     ToastSuccess
       (js "Added " ++ number_to_string (Z.of_nat (length newSizes))
        ++ js " size(s) from " ++ size_preset_name presetName ++ js " preset"))
  else (o, ToastInfo (js "All sizes from this preset are already added")).

Definition applyColorPreset (presetName : ColorPreset) (o : Options)
  : Options * Toast :=
  let presetColors := COLOR_PRESETS presetName in
  let newColors :=
    List.filter (fun color => negb (array_includes (colors o) color))
      presetColors in
  if Nat.ltb 0 (length newColors) then
    ({| sizes := sizes o; colors := colors o ++ newColors;
        newSize := newSize o; newColor := newColor o |},
     ToastSuccess
       (js "Added " ++ number_to_string (Z.of_nat (length newColors))
        ++ js " color(s) from " ++ color_preset_name presetName
        ++ js " preset"))
  else (o, ToastInfo (js "All colors from this preset are already added")).

(** [[...new Set(l)]]: the distinct entries, in order of first occurrence;
    [seen] holds the entries already met. *)
Fixpoint unique_from (seen l : list (list N)) : list (list N) :=
  match l with
  | [] => []
  | x :: r =>
      if array_includes seen x then unique_from seen r
      else x :: unique_from (x :: seen) r
  end.

(** [.filter(Boolean)] on a column of [string | null]. *)
Definition truthy_labels (column : list (option (list N))) : list (list N) :=
  omap (fun v => match v with
                 | Some s => if falsy s then None else Some s
                 | None => None
                 end) column.

(** The end of a successful [fetchVariants]: the option lists are rebuilt
    from the size and colour columns of the fetched variants. *)
Definition variants_loaded (size_column color_column : list (option (list N)))
  (o : Options) : Options :=
  {| sizes := unique_from [] (truthy_labels size_column);
     colors := unique_from [] (truthy_labels color_column);
     newSize := newSize o; newColor := newColor o |}.

(** Every way the page changes the option lists. *)
Inductive Edit :=
| VariantsLoaded (size_column color_column : list (option (list N)))
| AddSize
| RemoveSize (size : list N)
| AddColor
| RemoveColor (color : list N)
| SizePresetChosen (k : SizePreset)
| ColorPresetChosen (k : ColorPreset)
| TypeSize (text : list N)
| TypeColor (text : list N).

Definition edit (e : Edit) (o : Options) : Options :=
  match e with
  | VariantsLoaded size_column color_column =>
      variants_loaded size_column color_column o
  | AddSize => addSize o
  | RemoveSize size => removeSize size o
  | AddColor => addColor o
  | RemoveColor color => removeColor color o
  | SizePresetChosen k => fst (applySizePreset k o)
  | ColorPresetChosen k => fst (applyColorPreset k o)
  | TypeSize text =>
      {| sizes := sizes o; colors := colors o; newSize := text;
         newColor := newColor o |}
  | TypeColor text =>
      {| sizes := sizes o; colors := colors o; newSize := newSize o;
         newColor := text |}
  end.

(** The cells as [useState] initialises them. *)
Definition initial : Options :=
  {| sizes := []; colors := []; newSize := []; newColor := [] |}.

(** No label twice and no empty label, in either list. *)
Definition tidy (o : Options) : Prop :=
  NoDup (sizes o) /\ NoDup (colors o)
  /\ ([] ∉ sizes o) /\ ([] ∉ colors o).

End VariantOptions.

(* ===================================================================== *)
(** ** Product form: collection check boxes *)
(* ===================================================================== *)

Module ProductForm.
Import JS.

Record Collection := {
  id : Z;
  name : list N;
  slug : list N;
  published : bool
}.

(** [allCollections.find(c => c.id === collectionId)] *)
Definition find_collection (allCollections : list Collection)
  (collectionId : Z) : option Collection :=
  List.find (fun c => Z.eqb (id c) collectionId) allCollections.

(** The warning shown when an unpublished collection is ticked. *)
Definition unpublished_warning (c : Collection) : list N :=
  [9888%N; 65039%N] ++ js " " ++ [34%N] ++ name c ++ [34%N]
  ++ js " is unpublished. Customers won't see this collection on your store.".

(** [handleCollectionToggle], on the [collection_ids] of the form: the new
    ids, and the warning toast if one is raised. *)
Definition handleCollectionToggle (allCollections : list Collection)
  (collectionId : Z) (currentIds : list Z) : list Z * option (list N) :=
  let collection := find_collection allCollections collectionId in
  let isAdding := negb (bool_decide (collectionId ∈ currentIds)) in
  let newIds :=
    if isAdding then currentIds ++ [collectionId]
    else List.filter (fun i => negb (Z.eqb i collectionId)) currentIds in
  (newIds,
   match collection with
   | Some c => if (isAdding && negb (published c))%bool
               then Some (unpublished_warning c) else None
   | None => None
   end).

End ProductForm.

(* ===================================================================== *)
(** ** Storefront products page: the query parameters *)
(* ===================================================================== *)

Module ProductsPage.
Import JS JSMore.













End ProductsPage.

(* ===================================================================== *)
(** ** Image upload component *)
(* ===================================================================== *)

(** Async functions over an arbitrary kind of event: the same shapes as in
    [Eff], for the pages that talk to the admin endpoints. *)
Module Async.
Import Eff.

Section WithEvent.
Context {E : Type}.

Definition M (S A : Type) : Type := S -> list E -> Res A * S * list E.

Definition ret {S A} (a : A) : M S A := fun s l => (Ok a, s, l).

Definition bind {S A B} (m : M S A) (k : A -> M S B) : M S B :=
  fun s l =>
    match m s l with
    | (Ok a, s', l') => k a s' l'
    | (Throw e, s', l') => (Throw e, s', l')
    end.

Definition try_catch {S A} (m : M S A) (h : ApiError -> M S A) : M S A :=
  fun s l =>
    match m s l with
    | (Ok a, s', l') => (Ok a, s', l')
    | (Throw e, s', l') => h e s' l'
    end.

Definition finally {S A} (m : M S A) (f : S -> S) : M S A :=
  fun s l => match m s l with (r, s', l') => (r, f s', l') end.

Definition set {S} (f : S -> S) : M S unit := fun s l => (Ok tt, f s, l).

Definition emit {S} (e : E) : M S unit := fun s l => (Ok tt, s, l ++ [e]).

(** An awaited call, logged as [e] and answered from the history. *)
Definition await {S A} (e : E) (answer : list E -> ApiError + A) : M S A :=
  fun s l =>
    match answer l with
    | inl err => (Throw err, s, l ++ [e])
    | inr a => (Ok a, s, l ++ [e])
    end.

(** [for (const x of xs) { await body(x) }] *)
Fixpoint for_each {S X} (xs : list X) (body : X -> M S unit) : M S unit :=
  match xs with
  | [] => ret tt
  | x :: r => bind (body x) (fun _ => for_each r body)
  end.

End WithEvent.
End Async.

Declare Scope async_scope.
Delimit Scope async_scope with async.
Notation "'let*' x ':=' m 'in' k" := (Async.bind m (fun x => k))
  (at level 10, x name, m at level 100, k at level 200) : async_scope.
Notation "m1 ';;' m2" := (Async.bind m1 (fun _ => m2))
  (at level 100, m2 at level 200, right associativity) : async_scope.

Module ImageUpload.
Import JS JSMore Eff Async.
Local Open Scope async_scope.

Record ProductImage := {
  id : Z;
  url : list N;
  alt_text : option (list N);
  position : Z;
  primary : bool
}.

(** The two properties of a [File] that the component reads. *)
Record File := { name : list N; type : list N }.

(** The [product_image] object of the create request. *)
Record NewImage := {
  new_s3_key : list N;
  new_alt_text : list N;
  new_position : Z;
  new_primary : bool
}.

Inductive Call :=
| GetToken
| PostUpload (file : File) (token : option (list N))
| GetImages (productId : Z) (token : option (list N))
| PostImage (productId : Z) (product_image : NewImage)
    (token : option (list N))
| DeleteImage (productId imageId : Z) (token : option (list N))
| PostSetPrimary (productId imageId : Z) (token : option (list N)).

Inductive Event :=
| ECall (c : Call)
| EImagesChange (images : list ProductImage)   (* [onImagesChange(images)] *)
| EToastSuccess (msg : list N)
| EToastError (msg : list N)
| EConfirm (msg : list N).

Record Server := {
  srv_token : list Event -> ApiError + option (list N);
  srv_upload : list Event -> File -> option (list N) -> ApiError + list N;
  srv_images :
    list Event -> Z -> option (list N) -> ApiError + list ProductImage;
  srv_create_image :
    list Event -> Z -> NewImage -> option (list N) -> ApiError + unit;
  srv_delete_image :
    list Event -> Z -> Z -> option (list N) -> ApiError + unit;
  srv_set_primary :
    list Event -> Z -> Z -> option (list N) -> ApiError + unit;
  (** what the admin answers to a [confirm] dialog *)
  user_confirms : list Event -> bool
}.

Record State := { uploading : bool; dragOver : bool }.

Definition setUploading (b : bool) (s : State) : State :=
  {| uploading := b; dragOver := dragOver s |}.
Definition setDragOver (b : bool) (s : State) : State :=
  {| uploading := uploading s; dragOver := b |}.

Section WithServer.
Variable srv : Server.
Variable productId : Z.

Definition getToken : M State (option (list N)) :=
  await (ECall GetToken) (srv_token srv).

Definition getImages (token : option (list N))
  : M State (list ProductImage) :=
  await (ECall (GetImages productId token))
    (fun l => srv_images srv l productId token).

Definition uploadImage (file : File) : M State unit :=
  finally
    (try_catch
       (set (setUploading true) ;;
        let* token := getToken in
        let* s3Key :=
          await (ECall (PostUpload file token))
            (fun l => srv_upload srv l file token) in
        let* currentImages := getImages token in
        let nextPosition := Z.of_nat (length currentImages) in
        let shouldBePrimary := Nat.eqb (length currentImages) 0 in
        let product_image :=
          {| new_s3_key := s3Key; new_alt_text := name file;
             new_position := nextPosition;
             new_primary := shouldBePrimary |} in
        await (ECall (PostImage productId product_image token))
          (fun l => srv_create_image srv l productId product_image token) ;;
        let* freshImages := getImages token in
        emit (EImagesChange freshImages) ;;
        emit (EToastSuccess (js "Image uploaded successfully!")))
       (fun err =>
          emit (EToastError
                  (or_else (err_error err) (js "Failed to upload image")))))
    (setUploading false).

Definition handleFileSelect (files : list File) : M State unit :=
  for_each files uploadImage.

Definition handleDrop (files : list File) : M State unit :=
  set (setDragOver false) ;;
  for_each files
    (fun file =>
       if startsWith (type file) (js "image/") then uploadImage file
       else ret tt).

Definition deleteImage (imageId : Z) : M State unit :=
  fun s l =>
    let l0 := l ++ [EConfirm (js "Are you sure you want to delete this image?")] in
    if negb (user_confirms srv l) then (Ok tt, s, l0)
    else
      try_catch
        (let* token := getToken in
         await (ECall (DeleteImage productId imageId token))
           (fun l => srv_delete_image srv l productId imageId token) ;;
         let* freshImages := getImages token in
         emit (EImagesChange freshImages) ;;
         emit (EToastSuccess (js "Image deleted successfully!")))
        (fun err => emit (EToastError (js "Failed to delete image")))
        s l0.

Definition setPrimaryImage (imageId : Z) : M State unit :=
  try_catch
    (let* token := getToken in
     await (ECall (PostSetPrimary productId imageId token))
       (fun l => srv_set_primary srv l productId imageId token) ;;
     let* freshImages := getImages token in
     emit (EImagesChange freshImages) ;;
     emit (EToastSuccess (js "Primary image updated!")))
    (fun err => emit (EToastError (js "Failed to set primary image"))).

End WithServer.

Definition is_toast (e : Event) : bool :=
  match e with EToastSuccess _ | EToastError _ => true | _ => false end.

Definition is_images_change (e : Event) : bool :=
  match e with EImagesChange _ => true | _ => false end.

Definition is_upload (e : Event) : bool :=
  match e with ECall (PostUpload _ _) => true | _ => false end.

Definition is_image_file (file : File) : bool :=
  startsWith (type file) (js "image/").

Definition count (f : Event -> bool) (l : list Event) : nat :=
  length (List.filter f l).

(** A server on which every call succeeds and that holds [images]. *)
Definition srv_holding (images : list ProductImage) : Server :=
  {| srv_token := fun _ => inr (Some (js "jwt"));
     srv_upload := fun _ _ _ => inr (js "uploads/abc.png");
     srv_images := fun _ _ _ => inr images;
     srv_create_image := fun _ _ _ _ => inr tt;
     srv_delete_image := fun _ _ _ _ => inr tt;
     srv_set_primary := fun _ _ _ _ => inr tt;
     user_confirms := fun _ => true |}.

Definition photo : File := {| name := js "tee.png"; type := js "image/png" |}.

End ImageUpload.

(* ===================================================================== *)
(** ** Theorems *)
(* ===================================================================== *)

Section StringFacts.
Import JS.

Lemma trimStart_nil_iff (s : list N) :
  trimStart s = [] <-> forallb is_ws s = true.
Proof.
  induction s as [|c r IH]; simpl.
  - tauto.
  - destruct (is_ws c) eqn:E; simpl.
    + exact IH.
    + split; intros H; discriminate H.
Qed.

Lemma forallb_rev_ws (s : list N) :
  forallb is_ws (rev s) = forallb is_ws s.
Proof.
  induction s as [|c r IH]; simpl; [reflexivity|].
  rewrite forallb_app; simpl. rewrite IH.
  destruct (is_ws c), (forallb is_ws r); reflexivity.
Qed.

Lemma trimStart_head (s : list N) :
  trimStart s = [] \/ exists c r, trimStart s = c :: r /\ is_ws c = false.
Proof.
  induction s as [|c r IH]; simpl.
  - left; reflexivity.
  - destruct (is_ws c) eqn:E.
    + exact IH.
    + right. exists c, r. split; [reflexivity | exact E].
Qed.

(** A string trims to the empty string exactly when every code unit of it
    is white space. *)
Lemma trim_nil_iff (s : list N) :
  trim s = [] <-> forallb is_ws s = true.
Proof.
  unfold trim, trimEnd. split.
  - intros H.
    assert (H1 : trimStart (rev (trimStart s)) = []).
    { destruct (trimStart (rev (trimStart s))) as [|x xs] eqn:E; [reflexivity|].
      simpl in H. destruct (rev xs); discriminate H. }
    apply trimStart_nil_iff in H1. rewrite forallb_rev_ws in H1.
    destruct (trimStart_head s) as [H2 | (c & r & H2 & H3)].
    + apply trimStart_nil_iff; exact H2.
    + rewrite H2 in H1. simpl in H1. rewrite H3 in H1. discriminate H1.
  - intros H. apply trimStart_nil_iff in H. rewrite H. reflexivity.
Qed.

Lemma nonblank_true_iff (s : list N) :
  nonblank s = true <-> trim s <> [].
Proof.
  unfold nonblank, falsy. destruct (trim s); simpl; split; intros H;
    congruence.
Qed.

End StringFacts.

Section VariantStatus.
Import JS AdminProducts.

(** C9. The admin variant-status label is 'Available' exactly when the
    computed [actually_available] field is true; when it is false the label
    is 'Out of Stock' if the inventory level is 'variant' and the stock
    quantity is at most 0, and 'Disabled' otherwise; the manual [available]
    flag never influences the result. *)
Theorem getVariantStatus_spec (v : ProductVariant) (inventoryLevel : list N) :
  (label (getVariantStatus v inventoryLevel) = js "Available"
     <-> actually_available v = true)
  /\ (actually_available v = false ->
        (inventoryLevel = js "variant" /\ stock_quantity v <= 0 ->
           label (getVariantStatus v inventoryLevel) = js "Out of Stock")
        /\ (~ (inventoryLevel = js "variant" /\ stock_quantity v <= 0) ->
           label (getVariantStatus v inventoryLevel) = js "Disabled"))
  /\ (forall b : bool,
        getVariantStatus (with_available b v) inventoryLevel
        = getVariantStatus v inventoryLevel).
Proof.
  unfold getVariantStatus. split; [|split].
  - destruct (actually_available v); simpl.
    + split; reflexivity.
    + destruct (bool_decide _ && _)%bool; simpl; split; intros H;
        discriminate H.
  - intros Hf. rewrite Hf. simpl. split.
    + intros [Hl Hs]. rewrite (bool_decide_eq_true_2 _ Hl).
      apply Z.leb_le in Hs. rewrite Hs. reflexivity.
    + intros Hn.
      destruct (bool_decide (inventoryLevel = js "variant")) eqn:E1;
        destruct (Z.leb (stock_quantity v) 0) eqn:E2; simpl; try reflexivity.
      exfalso. apply Hn. split.
      * apply bool_decide_eq_true_1 in E1; exact E1.
      * apply Z.leb_le; exact E2.
  - intros b. reflexivity.
Qed.

End VariantStatus.

Section FormValidity.
Import JS Checkout.

(** C1. With delivery method 'pickup' the form is valid exactly when name,
    email and phone are non-blank after trimming; with 'shipping' it is
    valid exactly when, in addition, street1, city, state and zip of the
    shipping address are non-blank and a shipping method is selected.
    Changing street2 or country never changes the verdict. *)
Theorem isFormValid_spec (p : CheckoutState) :
  let contact :=
    trim (name p) <> [] /\ trim (email p) <> [] /\ trim (phone p) <> [] in
  let address :=
    trim (Order.street1 (shippingAddress p)) <> []
    /\ trim (Order.city (shippingAddress p)) <> []
    /\ trim (Order.state (shippingAddress p)) <> []
    /\ trim (Order.zip (shippingAddress p)) <> [] in
  (deliveryMethod p = pickup -> (isFormValid p = true <-> contact))
  /\ (deliveryMethod p = shipping ->
       (isFormValid p = true <->
        contact /\ address /\ shippingMethod p <> None))
  /\ (forall s2 c : option (list N),
        isFormValid
          (setShippingAddress (with_street2_country s2 c (shippingAddress p)) p)
        = isFormValid p).
Proof.
  intros contact address. subst contact address.
  unfold isFormValid. split; [|split].
  - intros ->. rewrite !andb_true_iff, !nonblank_true_iff. tauto.
  - intros ->. rewrite !andb_true_iff, !nonblank_true_iff.
    destruct (shippingMethod p) as [m|].
    + intuition congruence.
    + intuition congruence.
  - intros s2 c. reflexivity.
Qed.

End FormValidity.

Section CartStoreFacts.
Import JS Eff Store.

Ltac run_store :=
  unfold mutate, addItem, updateQuantity, removeItem, clearCart, fetchCart,
    bind, try_catch, set, get, request, emit, throw; simpl.

(** C6. When the request of [fetchCart] fails, the cached cart, the
    panel-open flag and the session identifier keep their prior values and
    the loading flag is cleared; the action itself resolves. *)
Theorem fetchCart_failure_frame (srv : Server) (s : CartStore)
  (l : list Event) (e : ApiError) :
  srv_get_cart srv l (sessionId s) = inl e ->
  let '(r, s', l') := fetchCart srv s l in
  r = Ok tt
  /\ cart s' = cart s /\ isOpen s' = isOpen s /\ sessionId s' = sessionId s
  /\ isLoading s' = false
  /\ l' = l ++ [EReq (GetCart (sessionId s))].
Proof.
  intros H. run_store. rewrite H. simpl. repeat split; reflexivity.
Qed.

Lemma fetchCart_failure_frame_witness :
  let '(r, s', l') := fetchCart Samples.srv_down Samples.store1 [] in
  r = Ok tt
  /\ cart s' = cart Samples.store1 /\ isOpen s' = isOpen Samples.store1
  /\ sessionId s' = sessionId Samples.store1
  /\ isLoading s' = false
  /\ l' = [] ++ [EReq (GetCart (sessionId Samples.store1))].
Proof.
  apply (fetchCart_failure_frame Samples.srv_down Samples.store1 []
           Samples.network_error).
  reflexivity.
Defined.

(** C2. After a successful [clearCart] the local cart is empty at once: the
    derived item count and subtotal read 0. The action sends exactly one
    request, the DELETE of the cart, and no request re-reads the cart. *)
Theorem clearCart_success (srv : Server) (s : CartStore) (l : list Event) :
  srv_delete_cart srv l (sessionId s) = inr tt ->
  let '(r, s', l') := clearCart srv s l in
  r = Ok tt
  /\ cart s' = None /\ isLoading s' = false
  /\ itemCount s' = 0 /\ Qeq (subtotal s') 0
  /\ l' = l ++ [EReq (DeleteCart (sessionId s))]
  /\ List.filter is_get_cart (requests (drop (length l) l')) = []
  /\ List.filter is_delete (requests (drop (length l) l'))
     = [DeleteCart (sessionId s)].
Proof.
  intros H. run_store. rewrite H. simpl.
  rewrite drop_app_length. repeat split; reflexivity.
Qed.

Lemma clearCart_success_witness :
  let '(r, s', l') := clearCart Samples.srv_up Samples.store1 [] in
  r = Ok tt
  /\ cart s' = None /\ isLoading s' = false
  /\ itemCount s' = 0 /\ Qeq (subtotal s') 0
  /\ l' = [] ++ [EReq (DeleteCart (sessionId Samples.store1))]
  /\ List.filter is_get_cart (requests (drop (length (@nil Event)) l')) = []
  /\ List.filter is_delete (requests (drop (length (@nil Event)) l'))
     = [DeleteCart (sessionId Samples.store1)].
Proof.
  apply (clearCart_success Samples.srv_up Samples.store1 []). reflexivity.
Defined.

(** C3. When the server rejects the request of a mutating action ([addItem],
    [updateQuantity], [removeItem], [clearCart]), the action clears the
    loading flag and changes nothing else in the store, rejects with the
    very error it received, and has sent that one request only: there is no
    retry. *)
Theorem mutation_failure (srv : Server) (m : Mutation) (s : CartStore)
  (l : list Event) (e : ApiError) :
  mutation_rejection srv m l (sessionId s) = Some e ->
  let '(r, s', l') := mutate srv m s l in
  r = Throw e
  /\ isLoading s' = false
  /\ s' = with_isLoading false s
  /\ requests (drop (length l) l') = [mutation_request m (sessionId s)].
Proof.
  intros H. destruct m; simpl in H; run_store.
  - destruct (srv_post_cart_items srv l (sessionId s) variantId quantity)
      as [e'|a] eqn:E; [|discriminate H].
    injection H as ->. simpl.
    rewrite <- app_assoc, drop_app_length. repeat split; reflexivity.
  - destruct (srv_put_cart_item srv l (sessionId s) cartItemId quantity)
      as [e'|a] eqn:E; [|discriminate H].
    injection H as ->. simpl.
    rewrite <- app_assoc, drop_app_length. repeat split; reflexivity.
  - destruct (srv_delete_cart_item srv l (sessionId s) cartItemId)
      as [e'|a] eqn:E; [|discriminate H].
    injection H as ->. simpl.
    rewrite drop_app_length. repeat split; reflexivity.
  - destruct (srv_delete_cart srv l (sessionId s))
      as [e'|a] eqn:E; [|discriminate H].
    injection H as ->. simpl.
    rewrite drop_app_length. repeat split; reflexivity.
Qed.

Lemma mutation_failure_witness :
  let '(r, s', l') :=
    mutate Samples.srv_down (MAddItem 3 1) Samples.store1 [] in
  r = Throw Samples.out_of_stock
  /\ isLoading s' = false
  /\ s' = with_isLoading false Samples.store1
  /\ requests (drop (length (@nil Event)) l')
     = [mutation_request (MAddItem 3 1) (sessionId Samples.store1)].
Proof.
  apply (mutation_failure Samples.srv_down (MAddItem 3 1) Samples.store1 []
           Samples.out_of_stock).
  reflexivity.
Defined.




End CartStoreFacts.

Section SessionFacts.
Import JS Session.

Variable randomUUID : nat -> list N.
(** [crypto.randomUUID] returns the 36-character text form of a UUID. *)
Hypothesis randomUUID_length : forall n, length (randomUUID n) = 36%nat.

Lemma randomUUID_truthy (n : nat) : falsy (randomUUID n) = false.
Proof.
  specialize (randomUUID_length n).
  destruct (randomUUID n); [discriminate randomUUID_length | reflexivity].
Qed.

(** Whatever the storage holds, a second call right after a first one
    returns the same identifier and leaves the browser as the first left it. *)
Lemma getSessionId_again (b : Browser) :
  let '(sid, b1) := getSessionId randomUUID b in
  getSessionId randomUUID b1 = (sid, b1).
Proof.
  unfold getSessionId.
  destruct (localStorage b !! js "cart_session_id") as [s|] eqn:E.
  - destruct (falsy s) eqn:F.
    + simpl. rewrite lookup_insert_eq, randomUUID_truthy. reflexivity.
    + rewrite E, F. reflexivity.
  - simpl. rewrite lookup_insert_eq, randomUUID_truthy. reflexivity.
Qed.

Lemma getSessionId_times_stable (b1 : Browser) (sid : list N) :
  getSessionId randomUUID b1 = (sid, b1) ->
  forall k, getSessionId_times randomUUID k b1 = (replicate k sid, b1).
Proof.
  intros H k. induction k as [|k IH]; simpl.
  - reflexivity.
  - rewrite H, IH. reflexivity.
Qed.

End SessionFacts.

Section SessionClaim.
Import JS Session.

(** C8. With no identifier stored, the first call of [getSessionId]
    generates a new identifier and persists it under 'cart_session_id';
    every later call, the storage being left alone in between, returns
    exactly that identifier, generates nothing and changes nothing. *)
Theorem getSessionId_idempotent (randomUUID : nat -> list N) (b : Browser) :
  (forall n, length (randomUUID n) = 36%nat) ->
  localStorage b !! js "cart_session_id" = None ->
  let '(sid, b1) := getSessionId randomUUID b in
  sid = randomUUID (uuids_drawn b)
  /\ localStorage b1 = <[js "cart_session_id" := sid]> (localStorage b)
  /\ localStorage b1 !! js "cart_session_id" = Some sid
  /\ uuids_drawn b1 = S (uuids_drawn b)
  /\ forall k, getSessionId_times randomUUID k b1 = (replicate k sid, b1).
Proof.
  intros Hlen Hnone.
  pose proof (getSessionId_again randomUUID Hlen b) as Hagain.
  unfold getSessionId in *. rewrite Hnone in *. simpl.
  repeat split.
  - apply lookup_insert_eq.
  - apply (getSessionId_times_stable randomUUID). exact Hagain.
Qed.

Lemma getSessionId_idempotent_witness :
  let '(sid, b1) := getSessionId Samples.uuid_stream Samples.fresh_browser in
  sid = Samples.uuid_stream (uuids_drawn Samples.fresh_browser)
  /\ localStorage b1
     = <[js "cart_session_id" := sid]> (localStorage Samples.fresh_browser)
  /\ localStorage b1 !! js "cart_session_id" = Some sid
  /\ uuids_drawn b1 = S (uuids_drawn Samples.fresh_browser)
  /\ forall k, getSessionId_times Samples.uuid_stream k b1 = (replicate k sid, b1).
Proof.
  apply (getSessionId_idempotent Samples.uuid_stream Samples.fresh_browser).
  - intros n. reflexivity.
  - reflexivity.
Defined.

End SessionClaim.

Section SplitJoin.
Import JS.

Lemma split_app_sep (sep : N) (x rest : list N) :
  ~ List.In sep x ->
  split sep (x ++ [sep] ++ rest) = x :: split sep rest.
Proof.
  induction x as [|c x IH]; intros Hx; simpl.
  - rewrite N.eqb_refl. reflexivity.
  - destruct (N.eqb c sep) eqn:E.
    + apply N.eqb_eq in E. exfalso. apply Hx. left. exact E.
    + simpl in IH. rewrite IH; [reflexivity|].
      intros Hin. apply Hx. right. exact Hin.
Qed.

Lemma split_no_sep (sep : N) (x : list N) :
  ~ List.In sep x -> split sep x = [x].
Proof.
  induction x as [|c x IH]; intros Hx; simpl.
  - reflexivity.
  - destruct (N.eqb c sep) eqn:E.
    + apply N.eqb_eq in E. exfalso. apply Hx. left. exact E.
    + rewrite IH; [reflexivity|].
      intros Hin. apply Hx. right. exact Hin.
Qed.

(** Splitting a joined list of separator-free lines gives the lines back. *)
Lemma split_join (sep : N) (ls : list (list N)) :
  ls <> [] ->
  (forall x, List.In x ls -> ~ List.In sep x) ->
  split sep (join [sep] ls) = ls.
Proof.
  induction ls as [|x r IH]; intros Hne Hall; [congruence|].
  destruct r as [|y r'].
  - simpl. apply split_no_sep. apply Hall. left. reflexivity.
  - change (join [sep] (x :: y :: r')) with (x ++ [sep] ++ join [sep] (y :: r')).
    rewrite split_app_sep by (apply Hall; left; reflexivity).
    rewrite IH; [reflexivity | congruence |].
    intros z Hz. apply Hall. right. exact Hz.
Qed.

End SplitJoin.

Section CheckoutFacts.
Import JS Eff Checkout.


Example handleCalculateShipping_selects_first :
  let '(r, a', l') := handleCalculateShipping Samples.srv_up Samples.app1 [] in
  r = Ok tt
  /\ availableShippingRates (page a') = [Samples.rate_usps; Samples.rate_ups]
  /\ shippingMethod (page a') = Some Samples.rate_usps
  /\ length l' = 1%nat.
Proof. vm_compute. repeat split; reflexivity. Qed.

End CheckoutFacts.

Section SubmitFacts.
Import JS Eff Checkout.

Lemma header_one_line : ~ List.In newline header.
Proof.
  intros Hin. vm_compute in Hin.
  repeat (destruct Hin as [Hin|Hin]; [discriminate Hin|]). exact Hin.
Qed.

Lemma bullet_line_one_line (issue : Issue) :
  ~ List.In newline (message issue) -> ~ List.In newline (bullet_line issue).
Proof.
  intros H Hin. unfold bullet_line in Hin. simpl in Hin.
  destruct Hin as [Hin|[Hin|Hin]]; [discriminate Hin | discriminate Hin |].
  apply H. exact Hin.
Qed.

Lemma submit_error_message_validation (err : ApiError) (issues : list Issue) :
  err_error err = Some (js "Cart validation failed") ->
  err_issues err = Some issues ->
  submit_error_message err
  = header ++ [newline] ++ join [newline] (List.map bullet_line issues).
Proof.
  intros He Hi. unfold submit_error_message. rewrite He, Hi.
  rewrite bool_decide_eq_true_2 by reflexivity. reflexivity.
Qed.

(** C5. A rejected order whose error is 'Cart validation failed' and
    carries a list of [n] issues is shown as the line 'Unable to complete
    order:' followed by exactly [n] bulleted lines, one per issue in the
    order returned, each '• ' plus that issue's message. Every other
    rejection is shown as one message: the error string of the server, or
    else the generic fallback. *)
Theorem handleSubmit_error_message (srv : Server) (a : App) (l : list Event) :
  (forall err issues,
     err_error err = Some (js "Cart validation failed") ->
     err_issues err = Some issues ->
     let bullets := List.map bullet_line issues in
     submit_error_message err = header ++ [newline] ++ join [newline] bullets
     /\ length bullets = length issues
     /\ (forall k issue, issues !! k = Some issue ->
           bullets !! k = Some ([bullet] ++ js " " ++ message issue))
     /\ ((forall issue, List.In issue issues ->
            ~ List.In newline (message issue)) ->
         split newline (submit_error_message err)
         = header :: match bullets with [] => [[]] | _ => bullets end))
  /\ (forall err,
        ~ (err_error err = Some (js "Cart validation failed")
           /\ err_issues err <> None) ->
        submit_error_message err = or_else (err_error err) fallback)
  /\ (forall orderData token l1 err,
        build_order (page a) = Some orderData ->
        token_granted srv (page a) l token l1 ->
        srv_create_order srv l1 orderData token (Store.sessionId (store a))
        = inl err ->
        let '(r, a', l') := handleSubmit srv a l in
        r = Ok tt
        /\ error (page a') = Some (submit_error_message err)
        /\ loading (page a') = false
        /\ store a' = store a
        /\ l' = l1 ++ [EReq (CreateOrder orderData token
                               (Store.sessionId (store a)))]).
Proof.
  split; [|split].
  - intros err issues He Hi bullets.
    pose proof (submit_error_message_validation err issues He Hi) as Hmsg.
    split; [exact Hmsg|]. split; [apply length_map|]. split.
    + intros k issue Hk. subst bullets.
      rewrite list_lookup_fmap_Some. exists issue. split; [reflexivity|exact Hk].
    + intros Hlines. rewrite Hmsg.
      rewrite split_app_sep by exact header_one_line.
      f_equal. subst bullets.
      destruct issues as [|i0 rest]; [reflexivity|].
      apply split_join; [discriminate|].
      intros x Hx. apply in_map_iff in Hx. destruct Hx as (i & <- & Hi').
      apply bullet_line_one_line. apply Hlines. exact Hi'.
  - intros err Hnot. unfold submit_error_message, fallback.
    destruct (err_error err) as [e|] eqn:He; [|reflexivity].
    destruct (err_issues err) as [issues|] eqn:Hi; [|reflexivity].
    destruct (bool_decide (e = js "Cart validation failed")) eqn:Hd;
      [|reflexivity].
    apply bool_decide_eq_true_1 in Hd. subst e.
    exfalso. apply Hnot. split; [reflexivity | discriminate].
  - intros orderData token l1 err Hod Htok Hrej.
    unfold handleSubmit, bind, get; cbv beta iota.
    unfold finally, try_catch, acquire_token, set, request, ret;
      cbv beta iota.
    unfold token_granted in Htok. simpl page. simpl store.
    destruct (isSignedIn (page a) && authLoaded (page a))%bool.
    + destruct Htok as [Ht ->]. rewrite Ht. cbv beta iota.
      rewrite Hod. rewrite Hrej. cbv beta iota. simpl.
      repeat split; reflexivity.
    + destruct Htok as [-> ->]. cbv beta iota.
      rewrite Hod. rewrite Hrej. cbv beta iota. simpl.
      repeat split; reflexivity.
Qed.

Example handleSubmit_two_issues :
  split newline (submit_error_message Samples.validation_failed)
  = [ js "Unable to complete order:";
      [bullet] ++ js " Blue Tee (M) is no longer available";
      [bullet] ++ js " Only 1 of Cap left in stock" ].
Proof. vm_compute. reflexivity. Qed.

End SubmitFacts.

Section PollingFacts.
Import ImportPage.

Lemma run_app (p : Page) (es1 es2 : list Event) :
  run p (es1 ++ es2)
  = match run p es1 with Some p' => run p' es2 | None => None end.
Proof.
  revert p. induction es1 as [|e r IH]; intros p; simpl.
  - reflexivity.
  - destruct (step p e) as [p'|]; [apply IH | reflexivity].
Qed.

Lemma active_not_terminal (s : Status) :
  is_active s = negb (is_terminal s).
Proof. destruct s; reflexivity. Qed.

(** The interval fires only while the watched job is pending or
    processing, and then starts one [fetchImportStatus] for that job. *)
Lemma tick_enabled (p p' : Page) :
  step p Tick = Some p' ->
  exists c, currentImport p = Some c
            /\ (status c = pending \/ status c = processing)
            /\ p' = fetchImportStatus_call (id c) p.
Proof.
  simpl. destruct (currentImport p) as [c|]; [|discriminate].
  destruct (is_active (status c)) eqn:E; [|discriminate].
  intros [= <-]. exists c. split; [reflexivity|]. split; [|reflexivity].
  destruct (status c); try discriminate E; auto.
Qed.

Lemma tick_disabled (p : Page) : polling p = false -> step p Tick = None.
Proof.
  unfold polling. simpl. destruct (currentImport p) as [c|]; [|reflexivity].
  intros ->. reflexivity.
Qed.

(** What one terminal answer does. *)
Lemma terminal_response (p : Page) (k : nat) (importId : Z) (d : Import) :
  in_flight p !! k = Some importId ->
  is_terminal (status d) = true ->
  exists p', step p (StatusResponse k d) = Some p'
             /\ currentImport p' = None
             /\ polling p' = false
             /\ step p' Tick = None
             /\ list_refreshes p' = S (list_refreshes p)
             /\ status_requests p' = status_requests p
             /\ in_flight p' = delete k (in_flight p).
Proof.
  intros Hk Ht. simpl. rewrite Hk. unfold fetchImportStatus_resolved. rewrite Ht.
  eexists. split; [reflexivity|]. simpl. repeat split; reflexivity.
Qed.

(** One answered poll that does not end polling. *)
Lemma poll_round_continues (p : Page) (answer : option Import) :
  in_flight p = [] -> polling p = true -> keeps_polling answer = true ->
  exists p', run p (poll_round answer) = Some p'
             /\ in_flight p' = [] /\ polling p' = true
             /\ status_requests p' = S (status_requests p)
             /\ list_refreshes p' = list_refreshes p.
Proof.
  destruct p as [cur imps fl nreq nref]. unfold polling. simpl.
  intros -> Hpoll Hans.
  destruct cur as [c|]; [|discriminate Hpoll].
  destruct answer as [d|]; simpl in Hans; simpl; rewrite Hpoll; simpl.
  - unfold fetchImportStatus_resolved. rewrite active_not_terminal in Hans.
    apply negb_true_iff in Hans. simpl. rewrite Hans.
    eexists. split; [reflexivity|]. simpl.
    rewrite active_not_terminal, Hans. repeat split; reflexivity.
  - eexists. split; [reflexivity|]. simpl.
    repeat split; try reflexivity. exact Hpoll.
Qed.

Lemma poll_rounds_continue (answers : list (option Import)) :
  forall p : Page,
  in_flight p = [] -> polling p = true ->
  forallb keeps_polling answers = true ->
  exists p', run p (poll_rounds answers) = Some p'
             /\ in_flight p' = [] /\ polling p' = true
             /\ status_requests p' = (length answers + status_requests p)%nat
             /\ list_refreshes p' = list_refreshes p.
Proof.
  induction answers as [|a r IH]; intros p Hin Hpoll Hall.
  - exists p. simpl. repeat split; assumption.
  - simpl in Hall. apply andb_true_iff in Hall. destruct Hall as [Ha Hr].
    destruct (poll_round_continues p a Hin Hpoll Ha)
      as (p1 & Hrun1 & Hin1 & Hpoll1 & Hreq1 & Href1).
    destruct (IH p1 Hin1 Hpoll1 Hr) as (p2 & Hrun2 & Hin2 & Hpoll2 & Hreq2 & Href2).
    exists p2. unfold poll_rounds in *. simpl. rewrite run_app, Hrun1.
    split; [exact Hrun2|]. repeat split; try assumption.
    + rewrite Hreq2, Hreq1. simpl. lia.
    + rewrite Href2. exact Href1.
Qed.

(** One answered poll that reports a finished job. *)
Lemma poll_round_finishes (p : Page) (d : Import) :
  in_flight p = [] -> polling p = true -> is_terminal (status d) = true ->
  exists p', run p (poll_round (Some d)) = Some p'
             /\ in_flight p' = [] /\ currentImport p' = None
             /\ status_requests p' = S (status_requests p)
             /\ list_refreshes p' = S (list_refreshes p).
Proof.
  destruct p as [cur imps fl nreq nref]. unfold polling. simpl.
  intros -> Hpoll Ht.
  destruct cur as [c|]; [|discriminate Hpoll].
  rewrite Hpoll. simpl. unfold fetchImportStatus_resolved. simpl. rewrite Ht.
  eexists. split; [reflexivity|]. simpl. repeat split; reflexivity.
Qed.

Lemma nothing_left (p : Page) :
  in_flight p = [] -> currentImport p = None -> forall e, step p e = None.
Proof.
  intros Hin Hc e. destruct e; simpl; rewrite ?Hc, ?Hin; reflexivity.
Qed.

(** C7. The code breaks the claim when polls overlap, against its own
    comment 'If completed or failed, stop polling'. With two status
    requests under way for one job that finishes once, both answers report
    'completed' and the job list is refreshed twice instead of once; and
    when the answer of the later request overtakes a stale 'processing'
    answer, the interval is set up again and a third status request goes
    out after 'completed' had been reported. *)
Lemma polling_overlap_counterexample :
  option_map list_refreshes
    (run (watching (job processing) []) overlapping_polls) = Some 2%nat
  /\ option_map (fun p => (polling p, status_requests p))
       (run (watching (job processing) []) overtaken_polls)
     = Some (true, 3%nat).
Proof. split; reflexivity. Qed.

(** What the polling code does achieve. The interval calls
    [fetchImportStatus] only while the watched job is pending or
    processing. Each status response that reports 'completed' or 'failed'
    clears the watched job, which tears the interval down, and refreshes
    the job list once. When every poll is answered before the interval fires
    again, polling a job ends with the first terminal answer: one status
    request per poll went out, the list was refreshed exactly once, and
    nothing further can happen. *)
Theorem polling_stops_at_terminal :
  (forall p p', step p Tick = Some p' ->
     exists c, currentImport p = Some c
               /\ (status c = pending \/ status c = processing)
               /\ status_requests p' = S (status_requests p))
  /\ (forall p, polling p = false -> step p Tick = None)
  /\ (forall p k importId d,
        in_flight p !! k = Some importId ->
        is_terminal (status d) = true ->
        exists p', step p (StatusResponse k d) = Some p'
                   /\ currentImport p' = None
                   /\ step p' Tick = None
                   /\ list_refreshes p' = S (list_refreshes p)
                   /\ status_requests p' = status_requests p)
  /\ (forall c l answers d,
        is_active (status c) = true ->
        forallb keeps_polling answers = true ->
        is_terminal (status d) = true ->
        exists p',
          run (watching c l) (poll_rounds answers ++ poll_round (Some d))
          = Some p'
          /\ status_requests p' = S (length answers)
          /\ list_refreshes p' = 1%nat
          /\ currentImport p' = None
          /\ forall e, step p' e = None).
Proof.
  split; [|split; [|split]].
  - intros p p' H. destruct (tick_enabled p p' H) as (c & Hc & Hs & ->).
    exists c. repeat split; assumption.
  - exact tick_disabled.
  - intros p k importId d Hk Ht.
    destruct (terminal_response p k importId d Hk Ht)
      as (p' & H1 & H2 & _ & H4 & H5 & H6 & _).
    exists p'. repeat split; assumption.
  - intros c l answers d Hc Hall Ht.
    destruct (poll_rounds_continue answers (watching c l))
      as (p1 & Hrun1 & Hin1 & Hpoll1 & Hreq1 & Href1);
      [reflexivity | exact Hc | exact Hall |].
    destruct (poll_round_finishes p1 d Hin1 Hpoll1 Ht)
      as (p2 & Hrun2 & Hin2 & Hcur2 & Hreq2 & Href2).
    exists p2. rewrite run_app, Hrun1. split; [exact Hrun2|].
    repeat split.
    + rewrite Hreq2, Hreq1. simpl. lia.
    + rewrite Href2, Href1. reflexivity.
    + exact Hcur2.
    + apply nothing_left; assumption.
Qed.

Example polling_three_rounds :
  option_map (fun p => (status_requests p, list_refreshes p, currentImport p))
    (run (watching (job pending) [job pending])
       (poll_rounds [Some (job pending); None; Some (job processing)]
        ++ poll_round (Some (job completed))))
  = Some (4%nat, 1%nat, None).
Proof. reflexivity. Qed.

End PollingFacts.

(* ===================================================================== *)
(** ** Further properties of the cart store *)
(* ===================================================================== *)

Section StoreMore.
Import JS Eff Store Panel.

Ltac unfold_store :=
  unfold perform, mutate, addItem, updateQuantity, removeItem, clearCart,
    fetchCart, bind, try_catch, set, get, request, emit, throw; simpl.

(** X1. Whatever the server answers, every asynchronous store action
    ([fetchCart] and the four mutations) ends with the loading flag
    cleared, keeps the session identifier, and only appends to the log. *)
Theorem store_actions_settle (srv : Server) (act : Action) (s : CartStore)
  (l : list Event) :
  let '(r, s', l') := perform srv act s l in
  isLoading s' = false
  /\ sessionId s' = sessionId s
  /\ exists new, l' = l ++ new.
Proof.
  destruct act as [|[v q|i q|i|]]; unfold_store.
  - destruct (srv_get_cart srv l (sessionId s)); simpl;
      (split; [reflexivity|split; [reflexivity|eexists; reflexivity]]).
  - unfold ret.
    destruct (srv_post_cart_items srv l (sessionId s) v q) as [e|[data|]];
      simpl.
    + split; [reflexivity|split; [reflexivity|]].
      eexists. rewrite <- app_assoc. reflexivity.
    + destruct (srv_get_cart srv _ (sessionId s)); simpl;
        (split; [reflexivity|split; [reflexivity|]]);
        eexists; rewrite <- app_assoc; reflexivity.
    + destruct (srv_get_cart srv _ (sessionId s)); simpl;
        (split; [reflexivity|split; [reflexivity|]]);
        eexists; rewrite <- !app_assoc; reflexivity.
  - destruct (srv_put_cart_item srv l (sessionId s) i q); simpl.
    + split; [reflexivity|split; [reflexivity|]].
      eexists. rewrite <- app_assoc. reflexivity.
    + destruct (srv_get_cart srv _ (sessionId s)); simpl;
        (split; [reflexivity|split; [reflexivity|]]);
        eexists; rewrite <- app_assoc; reflexivity.
  - destruct (srv_delete_cart_item srv l (sessionId s) i); simpl.
    + split; [reflexivity|split; [reflexivity|]].
      eexists. reflexivity.
    + destruct (srv_get_cart srv _ (sessionId s)); simpl;
        (split; [reflexivity|split; [reflexivity|]]);
        eexists; rewrite <- app_assoc; reflexivity.
  - destruct (srv_delete_cart srv l (sessionId s)); simpl;
      (split; [reflexivity|split; [reflexivity|eexists; reflexivity]]).
Qed.

(** X2. [fetchCart] never rejects. It sends exactly one request, the GET
    of the cart under the stored session identifier, and replaces the
    cached cart by the answer exactly when that request succeeds; the
    drawer flag is never touched. *)
Theorem fetchCart_always_resolves (srv : Server) (s : CartStore)
  (l : list Event) :
  let '(r, s', l') := fetchCart srv s l in
  r = Ok tt
  /\ l' = l ++ [EReq (GetCart (sessionId s))]
  /\ cart s' = match srv_get_cart srv l (sessionId s) with
               | inr data => Some data
               | inl _ => cart s
               end
  /\ isOpen s' = isOpen s.
Proof.
  unfold_store. destruct (srv_get_cart srv l (sessionId s)); simpl;
    repeat split; reflexivity.
Qed.

(** X3. When the server accepts the request of [addItem], [updateQuantity]
    or [removeItem] (for [addItem]: with a response body), the action
    resolves after exactly two requests, the mutation and then a GET of the
    cart answered with the mutation already in the history. The cached cart
    becomes that answer, or stays as it was if the re-fetch fails; only
    [addItem] opens the drawer. *)
Theorem mutation_then_refetch (srv : Server) (m : Mutation) (s : CartStore)
  (l : list Event) :
  refetches m = true ->
  accepted srv m l (sessionId s) = true ->
  let sid := sessionId s in
  let req := mutation_request m sid in
  let '(r, s', l') := mutate srv m s l in
  r = Ok tt
  /\ l' = l ++ [EReq req; EReq (GetCart sid)]
  /\ cart s' = match srv_get_cart srv (l ++ [EReq req]) sid with
               | inr data => Some data
               | inl _ => cart s
               end
  /\ isOpen s' = match m with MAddItem _ _ => true | _ => isOpen s end
  /\ isLoading s' = false.
Proof.
  intros Hre Hacc. destruct m as [v q|i q|i|]; simpl in Hre, Hacc;
    [| | |discriminate Hre]; unfold_store.
  - unfold ret.
    destruct (srv_post_cart_items srv l (sessionId s) v q) as [e|[data|]];
      [discriminate Hacc| |discriminate Hacc]. simpl.
    destruct (srv_get_cart srv _ (sessionId s)); simpl;
      rewrite <- app_assoc; repeat split; reflexivity.
  - destruct (srv_put_cart_item srv l (sessionId s) i q);
      [discriminate Hacc|]. simpl.
    destruct (srv_get_cart srv _ (sessionId s)); simpl;
      rewrite <- app_assoc; repeat split; reflexivity.
  - destruct (srv_delete_cart_item srv l (sessionId s) i);
      [discriminate Hacc|]. simpl.
    destruct (srv_get_cart srv _ (sessionId s)); simpl;
      rewrite <- app_assoc; repeat split; reflexivity.
Qed.

Lemma mutation_then_refetch_witness :
  let s := Samples.store1 in
  let m := MAddItem 3 1 in
  let '(r, s', l') := mutate Samples.srv_no_read m s [] in
  r = Ok tt
  /\ l' = [] ++ [EReq (mutation_request m (sessionId s));
                 EReq (GetCart (sessionId s))]
  /\ cart s' = match srv_get_cart Samples.srv_no_read
                       ([] ++ [EReq (mutation_request m (sessionId s))])
                       (sessionId s) with
               | inr data => Some data
               | inl _ => cart s
               end
  /\ isOpen s' = match m with MAddItem _ _ => true | _ => isOpen s end
  /\ isLoading s' = false.
Proof.
  apply (mutation_then_refetch Samples.srv_no_read (MAddItem 3 1)
           Samples.store1 []); reflexivity.
Defined.

(** An [addItem] whose POST succeeds without a response body: the cart is
    still re-fetched, then the read of [response.data.message] raises, and
    the action alerts its fallback text and rejects; the drawer is left as
    it was. *)
Lemma addItem_without_body (srv : Server) (s : CartStore) (l : list Event)
  (variantId quantity : Z) :
  let sid := sessionId s in
  let post := PostCartItems sid variantId quantity in
  srv_post_cart_items srv l sid variantId quantity = inr None ->
  let '(r, s', l') := addItem srv variantId quantity s l in
  r = Throw type_error
  /\ isOpen s' = isOpen s /\ isLoading s' = false
  /\ cart s' = match srv_get_cart srv (l ++ [EReq post]) sid with
               | inr data => Some data
               | inl _ => cart s
               end
  /\ l' = l ++ [EReq post; EReq (GetCart sid);
                EAlert (js "Failed to add item to cart")].
Proof.
  intros sid post Hpost. subst sid post. unfold_store. unfold ret.
  rewrite Hpost. simpl.
  destruct (srv_get_cart srv _ (sessionId s)); simpl;
    rewrite <- !app_assoc; repeat split; reflexivity.
Qed.

(** X4. The drawer actions touch nothing but the drawer flag; toggling
    twice restores the store, and toggling an opened drawer closes it. *)
Theorem drawer_actions (s : CartStore) :
  toggleCart (toggleCart s) = s
  /\ toggleCart (openCart s) = closeCart s
  /\ toggleCart (closeCart s) = openCart s
  /\ (forall f, In f [toggleCart; openCart; closeCart] ->
        cart (f s) = cart s /\ isLoading (f s) = isLoading s
        /\ sessionId (f s) = sessionId s
        /\ itemCount (f s) = itemCount s).
Proof.
  destruct s as [c ld op sid]. unfold toggleCart, openCart, closeCart,
    with_isOpen. simpl. rewrite negb_involutive.
  repeat split; try reflexivity;
    destruct H as [<-|[<-|[<-|[]]]]; reflexivity.
Qed.

End StoreMore.

(* ===================================================================== *)
(** ** Further properties of the checkout page *)
(* ===================================================================== *)

Section CheckoutMore.
Import JS Eff Checkout CheckoutView.

Ltac unfold_page :=
  unfold handleSubmit, handleCalculateShipping, acquire_token, on_store, lift,
    Store.clearCart, finally, bind, try_catch, set, get, request, emit, throw,
    ret; cbv beta iota.

Ltac split_cases :=
  repeat match goal with
  | |- context [match ?x with inl _ => _ | inr _ => _ end] => destruct x
  | |- context [match ?x with Some _ => _ | None => _ end] => destruct x
  | |- context [if ?x then _ else _] => destruct x
  end.

(** X5. As long as the [issues] of a rejection, when present, are a list
    of issue objects (the only errors [ApiError] describes; on any other
    truthy [issues] the [catch] block itself would raise), [handleSubmit]
    never rejects, whichever calls the server accepts or rejects: it always
    ends with [loading] cleared, and it changes neither what the customer
    entered or selected nor the session identifier. *)
Theorem handleSubmit_always_settles (srv : Server) (a : App)
  (l : list Event) :
  let '(r, a', l') := handleSubmit srv a l in
  r = Ok tt
  /\ loading (page a') = false
  /\ form_of (page a') = form_of (page a)
  /\ Store.sessionId (store a') = Store.sessionId (store a).
Proof.
  unfold_page.
  destruct (isSignedIn (page a) && authLoaded (page a))%bool;
    cbv beta iota.
  - destruct (srv_get_token srv l); cbv beta iota;
      [simpl; repeat split; reflexivity|].
    destruct (build_order (page a)); cbv beta iota;
      [|simpl; repeat split; reflexivity].
    destruct (srv_create_order srv _ _ _ _) as [e|resp]; cbv beta iota;
      [simpl; repeat split; reflexivity|].
    destruct (Order.success resp); cbv beta iota;
      [|simpl; repeat split; reflexivity].
    simpl. destruct (srv_delete_cart srv _ _); simpl;
      repeat split; reflexivity.
  - destruct (build_order (page a)); cbv beta iota;
      [|simpl; repeat split; reflexivity].
    destruct (srv_create_order srv _ _ _ _) as [e|resp]; cbv beta iota;
      [simpl; repeat split; reflexivity|].
    destruct (Order.success resp); cbv beta iota;
      [|simpl; repeat split; reflexivity].
    simpl. destruct (srv_delete_cart srv _ _); simpl;
      repeat split; reflexivity.
Qed.

Lemma build_order_none (p : CheckoutState) :
  build_order p = None <->
  deliveryMethod p = shipping /\ shippingMethod p = None.
Proof.
  unfold build_order.
  destruct (deliveryMethod p); destruct (shippingMethod p);
    intuition congruence.
Qed.

(** X6. With shipping chosen and no rate selected, [handleSubmit] creates
    no order: no request other than the token request leaves the page, the
    store is untouched, and once the token step has passed the message
    'Please select a shipping method' is shown. *)
Theorem handleSubmit_without_method (srv : Server) (a : App)
  (l : list Event) :
  deliveryMethod (page a) = shipping ->
  shippingMethod (page a) = None ->
  let '(r, a', l') := handleSubmit srv a l in
  store a' = store a
  /\ requests (drop (length l) l')
     = (if (isSignedIn (page a) && authLoaded (page a))%bool
        then [GetToken] else [])
  /\ (forall token l1, token_granted srv (page a) l token l1 ->
        error (page a') = Some (js "Please select a shipping method")).
Proof.
  intros Hd Hm.
  assert (Hb : build_order (page a) = None) by (apply build_order_none; auto).
  unfold_page. unfold token_granted. rewrite Hb.
  destruct a as [st pg]. simpl in *.
  destruct (isSignedIn pg && authLoaded pg)%bool; cbv beta iota.
  - destruct (srv_get_token srv l) as [e|tok]; simpl;
      rewrite drop_app_length; (split; [reflexivity|]);
      (split; [reflexivity|]); intros token l1 [H1 H2];
      [discriminate H1 | reflexivity].
  - simpl. rewrite drop_all. repeat split; reflexivity.
Qed.

Lemma handleSubmit_without_method_witness :
  let '(r, a', l') := handleSubmit Samples.srv_up Samples.app1 [] in
  store a' = store Samples.app1
  /\ requests (drop (length (@nil Event)) l')
     = (if (isSignedIn (page Samples.app1)
            && authLoaded (page Samples.app1))%bool
        then [GetToken] else [])
  /\ (forall token l1,
        token_granted Samples.srv_up (page Samples.app1) [] token l1 ->
        error (page a') = Some (js "Please select a shipping method")).
Proof.
  apply (handleSubmit_without_method Samples.srv_up Samples.app1 []);
    reflexivity.
Defined.

(** X7. A form that [isFormValid] accepts always yields an order. It
    carries the e-mail and phone as entered; for pickup, the fixed pickup
    address under the contact name and the zero-cost pickup rate, whatever
    address or rate the page holds; for shipping, the selected rate and the
    entered address with its name replaced by the contact name. *)
Theorem valid_form_builds_order (p : CheckoutState) :
  isFormValid p = true ->
  exists orderData,
    build_order p = Some orderData
    /\ Order.email orderData = email p
    /\ Order.phone orderData = phone p
    /\ Order.name (Order.shipping_address orderData) = name p
    /\ (deliveryMethod p = pickup ->
          Order.shipping_address orderData = pickup_address (name p)
          /\ Order.shipping_method orderData = pickup_method
          /\ Order.rate_cents (Order.shipping_method orderData) = 0)
    /\ (deliveryMethod p = shipping ->
          shippingMethod p = Some (Order.shipping_method orderData)
          /\ Order.street1 (Order.shipping_address orderData)
             = Order.street1 (shippingAddress p)
          /\ Order.street2 (Order.shipping_address orderData)
             = Order.street2 (shippingAddress p)
          /\ Order.city (Order.shipping_address orderData)
             = Order.city (shippingAddress p)
          /\ Order.state (Order.shipping_address orderData)
             = Order.state (shippingAddress p)
          /\ Order.zip (Order.shipping_address orderData)
             = Order.zip (shippingAddress p)
          /\ Order.country (Order.shipping_address orderData)
             = Order.country (shippingAddress p)).
Proof.
  unfold isFormValid, build_order. intros Hv.
  destruct (deliveryMethod p).
  - eexists. split; [reflexivity|]. simpl.
    repeat split; try reflexivity; discriminate.
  - destruct (shippingMethod p) as [m|].
    + eexists. split; [reflexivity|]. simpl.
      repeat split; try reflexivity; discriminate.
    + rewrite andb_false_r in Hv. discriminate Hv.
Qed.

Lemma valid_form_builds_order_witness :
  exists orderData,
    build_order MoreSamples.page_pickup = Some orderData
    /\ Order.email orderData = email MoreSamples.page_pickup
    /\ Order.phone orderData = phone MoreSamples.page_pickup.
Proof.
  destruct (valid_form_builds_order MoreSamples.page_pickup)
    as (od & H1 & H2 & H3 & _); [reflexivity|].
  exists od. repeat split; assumption.
Defined.

(** X8. When the order is created and the cart is then cleared,
    [handleSubmit] leaves the local cart empty with no error shown, and its
    last act is the navigation to the confirmation page of the new order;
    exactly the order request and the DELETE of the cart were sent after
    the token step. *)
Theorem handleSubmit_success (srv : Server) (a : App) (l l1 : list Event)
  (orderData : Order.CreateOrderRequest) (token : option (list N))
  (response : Order.CreateOrderResponse) :
  let sid := Store.sessionId (store a) in
  let create := EReq (CreateOrder orderData token sid) in
  build_order (page a) = Some orderData ->
  token_granted srv (page a) l token l1 ->
  srv_create_order srv l1 orderData token sid = inr response ->
  Order.success response = true ->
  srv_delete_cart srv (l1 ++ [create]) sid = inr tt ->
  let '(r, a', l') := handleSubmit srv a l in
  r = Ok tt
  /\ Store.cart (store a') = None
  /\ CheckoutView.subtotalCents a' = 0
  /\ error (page a') = None
  /\ loading (page a') = false
  /\ l' = l1 ++ [create; EReq (DeleteCart sid);
                 ENavigateOrder (Order.order_id response)].
Proof.
  intros sid create Hod Htok Hcreate Hsucc Hdel. subst sid create.
  unfold_page. unfold token_granted in Htok.
  destruct a as [st pg]. simpl in *.
  destruct (isSignedIn pg && authLoaded pg)%bool; cbv beta iota.
  - destruct Htok as [Ht ->]. rewrite Ht. cbv beta iota.
    rewrite Hod, Hcreate. cbv beta iota. rewrite Hsucc. simpl.
    rewrite Hdel. simpl. rewrite <- !app_assoc. repeat split; reflexivity.
  - destruct Htok as [-> ->]. cbv beta iota.
    rewrite Hod, Hcreate. cbv beta iota. rewrite Hsucc. simpl.
    rewrite Hdel. simpl. rewrite <- !app_assoc. repeat split; reflexivity.
Qed.

Lemma handleSubmit_success_witness :
  let sid := Store.sessionId (store MoreSamples.app_pickup) in
  let '(r, a', l') :=
    handleSubmit Samples.srv_up MoreSamples.app_pickup [] in
  r = Ok tt
  /\ Store.cart (store a') = None
  /\ CheckoutView.subtotalCents a' = 0
  /\ error (page a') = None
  /\ loading (page a') = false
  /\ l' = [] ++ [EReq (CreateOrder MoreSamples.order_pickup None sid);
                 EReq (DeleteCart sid); ENavigateOrder 41].
Proof.
  apply (handleSubmit_success Samples.srv_up MoreSamples.app_pickup [] []
           MoreSamples.order_pickup None
           {| Order.success := true; Order.order_id := 41 |});
    try reflexivity.
  split; reflexivity.
Defined.

(** X9. When the order is created but clearing the cart is rejected,
    [handleSubmit] does not navigate to the confirmation page: the cached
    cart stays, and the rejection of the DELETE is shown as the error. *)
Theorem handleSubmit_clear_rejected (srv : Server) (a : App)
  (l l1 : list Event) (orderData : Order.CreateOrderRequest)
  (token : option (list N)) (response : Order.CreateOrderResponse)
  (e : ApiError) :
  let sid := Store.sessionId (store a) in
  let create := EReq (CreateOrder orderData token sid) in
  build_order (page a) = Some orderData ->
  token_granted srv (page a) l token l1 ->
  srv_create_order srv l1 orderData token sid = inr response ->
  Order.success response = true ->
  srv_delete_cart srv (l1 ++ [create]) sid = inl e ->
  let '(r, a', l') := handleSubmit srv a l in
  r = Ok tt
  /\ Store.cart (store a') = Store.cart (store a)
  /\ error (page a') = Some (submit_error_message e)
  /\ loading (page a') = false
  /\ l' = l1 ++ [create; EReq (DeleteCart sid)]
  /\ List.filter is_navigation l' = List.filter is_navigation l1.
Proof.
  intros sid create Hod Htok Hcreate Hsucc Hdel. subst sid create.
  unfold_page. unfold token_granted in Htok.
  destruct a as [st pg]. simpl in *.
  destruct (isSignedIn pg && authLoaded pg)%bool; cbv beta iota.
  - destruct Htok as [Ht ->]. rewrite Ht. cbv beta iota.
    rewrite Hod, Hcreate. cbv beta iota. rewrite Hsucc. simpl.
    rewrite Hdel. simpl. rewrite <- !app_assoc.
    repeat split; try reflexivity.
    rewrite !List.filter_app. simpl. rewrite !app_nil_r. reflexivity.
  - destruct Htok as [-> ->]. cbv beta iota.
    rewrite Hod, Hcreate. cbv beta iota. rewrite Hsucc. simpl.
    rewrite Hdel. simpl. rewrite <- !app_assoc.
    repeat split; try reflexivity.
    rewrite !List.filter_app. simpl. rewrite !app_nil_r. reflexivity.
Qed.

Lemma handleSubmit_clear_rejected_witness :
  let sid := Store.sessionId (store MoreSamples.app_pickup) in
  let '(r, a', l') :=
    handleSubmit MoreSamples.srv_no_clear MoreSamples.app_pickup [] in
  r = Ok tt
  /\ Store.cart (store a') = Store.cart (store MoreSamples.app_pickup)
  /\ error (page a') = Some (submit_error_message Samples.network_error)
  /\ loading (page a') = false
  /\ l' = [] ++ [EReq (CreateOrder MoreSamples.order_pickup None sid);
                 EReq (DeleteCart sid)]
  /\ List.filter is_navigation l' = List.filter is_navigation [].
Proof.
  apply (handleSubmit_clear_rejected MoreSamples.srv_no_clear
           MoreSamples.app_pickup [] [] MoreSamples.order_pickup None
           {| Order.success := true; Order.order_id := 41 |}
           Samples.network_error);
    try reflexivity.
  split; reflexivity.
Defined.

(** X10. When the order endpoint answers without success, [handleSubmit]
    shows 'Failed to create order. Please try again.', leaves the store
    (and so the cart) as it was, and sends nothing after the order request:
    the cart is not cleared and there is no navigation. *)
Theorem handleSubmit_unsuccessful (srv : Server) (a : App)
  (l l1 : list Event) (orderData : Order.CreateOrderRequest)
  (token : option (list N)) (response : Order.CreateOrderResponse) :
  let sid := Store.sessionId (store a) in
  build_order (page a) = Some orderData ->
  token_granted srv (page a) l token l1 ->
  srv_create_order srv l1 orderData token sid = inr response ->
  Order.success response = false ->
  let '(r, a', l') := handleSubmit srv a l in
  r = Ok tt
  /\ store a' = store a
  /\ error (page a')
     = Some (js "Failed to create order. Please try again.")
  /\ loading (page a') = false
  /\ l' = l1 ++ [EReq (CreateOrder orderData token sid)].
Proof.
  intros sid Hod Htok Hcreate Hsucc. subst sid.
  unfold_page. unfold token_granted in Htok.
  destruct a as [st pg]. simpl in *.
  destruct (isSignedIn pg && authLoaded pg)%bool; cbv beta iota.
  - destruct Htok as [Ht ->]. rewrite Ht. cbv beta iota.
    rewrite Hod, Hcreate. cbv beta iota. rewrite Hsucc. simpl.
    repeat split; reflexivity.
  - destruct Htok as [-> ->]. cbv beta iota.
    rewrite Hod, Hcreate. cbv beta iota. rewrite Hsucc. simpl.
    repeat split; reflexivity.
Qed.

Lemma handleSubmit_unsuccessful_witness :
  let sid := Store.sessionId (store MoreSamples.app_pickup) in
  let '(r, a', l') :=
    handleSubmit MoreSamples.srv_declines MoreSamples.app_pickup [] in
  r = Ok tt
  /\ store a' = store MoreSamples.app_pickup
  /\ error (page a')
     = Some (js "Failed to create order. Please try again.")
  /\ loading (page a') = false
  /\ l' = [] ++ [EReq (CreateOrder MoreSamples.order_pickup None sid)].
Proof.
  apply (handleSubmit_unsuccessful MoreSamples.srv_declines
           MoreSamples.app_pickup [] [] MoreSamples.order_pickup None
           {| Order.success := false; Order.order_id := 0 |});
    try reflexivity.
  split; reflexivity.
Defined.

Lemma address_guard (p : CheckoutState) :
  address_complete p ->
  (falsy (Order.street1 (shippingAddress p))
   || falsy (Order.city (shippingAddress p))
   || falsy (Order.state (shippingAddress p))
   || falsy (Order.zip (shippingAddress p)))%bool = false.
Proof.
  unfold address_complete, falsy.
  destruct (Order.street1 (shippingAddress p));
    destruct (Order.city (shippingAddress p));
    destruct (Order.state (shippingAddress p));
    destruct (Order.zip (shippingAddress p)); intuition congruence.
Qed.

(** X11. [handleCalculateShipping] never rejects and never touches the
    store, the contact fields, the delivery choice, the address or the
    order error, whatever the server does. *)
Theorem handleCalculateShipping_always_settles (srv : Server) (a : App)
  (l : list Event) :
  let '(r, a', l') := handleCalculateShipping srv a l in
  r = Ok tt
  /\ store a' = store a
  /\ (name (page a'), email (page a'), phone (page a'),
      deliveryMethod (page a'), shippingAddress (page a'))
     = (name (page a), email (page a), phone (page a),
        deliveryMethod (page a), shippingAddress (page a))
  /\ error (page a') = error (page a)
  /\ loading (page a') = loading (page a).
Proof.
  unfold_page. destruct a as [st pg]. simpl.
  destruct (falsy _ || falsy _ || falsy _ || falsy _)%bool; cbv beta iota;
    [simpl; repeat split; reflexivity|].
  destruct (isSignedIn pg && authLoaded pg)%bool; cbv beta iota.
  - destruct (srv_get_token srv l); cbv beta iota;
      [simpl; repeat split; reflexivity|].
    destruct (srv_calculate_rates srv _ _ _ _) as [e|[|r0 rs]];
      simpl; repeat split; reflexivity.
  - destruct (srv_calculate_rates srv _ _ _ _) as [e|[|r0 rs]];
      simpl; repeat split; reflexivity.
Qed.

(** X12. When the rate API rejects the request, the message shown is the
    error string of the server, or else 'Failed to calculate shipping.
    Please try again.'; the rates offered before and the rate selected
    before both stay, and the calculating flag is cleared. *)
Theorem handleCalculateShipping_rejected (srv : Server) (a : App)
  (l l1 : list Event) (token : option (list N)) (err : ApiError) :
  address_complete (page a) ->
  token_granted srv (page a) l token l1 ->
  srv_calculate_rates srv l1 (rates_address (page a))
    (Store.sessionId (store a)) token = inl err ->
  let '(r, a', l') := handleCalculateShipping srv a l in
  r = Ok tt
  /\ shippingError (page a')
     = Some (or_else (err_error err)
               (js "Failed to calculate shipping. Please try again."))
  /\ availableShippingRates (page a') = availableShippingRates (page a)
  /\ shippingMethod (page a') = shippingMethod (page a)
  /\ calculatingShipping (page a') = false
  /\ l' = l1 ++ [EReq (CalculateRates (rates_address (page a))
                         (Store.sessionId (store a)) token)].
Proof.
  intros Hc Htok Hrej. unfold_page. rewrite (address_guard _ Hc).
  unfold token_granted in Htok. destruct a as [st pg]. simpl in *.
  destruct (isSignedIn pg && authLoaded pg)%bool; cbv beta iota.
  - destruct Htok as [Ht ->]. rewrite Ht. cbv beta iota. rewrite Hrej.
    simpl. repeat split; reflexivity.
  - destruct Htok as [-> ->]. cbv beta iota. rewrite Hrej.
    simpl. repeat split; reflexivity.
Qed.

Lemma handleCalculateShipping_rejected_witness :
  let a := MoreSamples.app_rated in
  let '(r, a', l') := handleCalculateShipping Samples.srv_down a [] in
  r = Ok tt
  /\ shippingError (page a')
     = Some (or_else (err_error Samples.network_error)
               (js "Failed to calculate shipping. Please try again."))
  /\ availableShippingRates (page a') = availableShippingRates (page a)
  /\ shippingMethod (page a') = shippingMethod (page a)
  /\ calculatingShipping (page a') = false
  /\ l' = [] ++ [EReq (CalculateRates (rates_address (page a))
                         (Store.sessionId (store a)) None)].
Proof.
  apply (handleCalculateShipping_rejected Samples.srv_down
           MoreSamples.app_rated [] [] None Samples.network_error).
  - repeat split; discriminate.
  - split; reflexivity.
  - reflexivity.
Defined.

(** X13. After [handleCalculateShipping] has received a non-empty list of
    rates, a shipping form is valid exactly when contact fields and address
    fields are non-blank: the rate requirement is met by the automatic
    selection. An address field of white space only passes the emptiness
    check of the rate lookup and still leaves the form invalid. *)
Theorem rates_make_form_valid (srv : Server) (a : App) (l l1 : list Event)
  (token : option (list N)) (first : Order.ShippingMethod)
  (rest : list Order.ShippingMethod) :
  deliveryMethod (page a) = shipping ->
  address_complete (page a) ->
  token_granted srv (page a) l token l1 ->
  srv_calculate_rates srv l1 (rates_address (page a))
    (Store.sessionId (store a)) token = inr (first :: rest) ->
  let '(r, a', l') := handleCalculateShipping srv a l in
  isFormValid (page a')
  = (nonblank (name (page a)) && nonblank (email (page a))
     && nonblank (phone (page a))
     && (nonblank (Order.street1 (shippingAddress (page a)))
         && nonblank (Order.city (shippingAddress (page a)))
         && nonblank (Order.state (shippingAddress (page a)))
         && nonblank (Order.zip (shippingAddress (page a)))))%bool
  /\ build_order (page a')
     = build_order (setShippingMethod (Some first) (page a)).
Proof.
  intros Hd Hc Htok Hrates. unfold_page. rewrite (address_guard _ Hc).
  unfold token_granted in Htok. destruct a as [st pg]. simpl in *.
  destruct (isSignedIn pg && authLoaded pg)%bool; cbv beta iota.
  - destruct Htok as [Ht ->]. rewrite Ht. cbv beta iota. rewrite Hrates.
    simpl. unfold isFormValid, build_order. simpl. rewrite Hd.
    rewrite andb_true_r. split; reflexivity.
  - destruct Htok as [-> ->]. cbv beta iota. rewrite Hrates.
    simpl. unfold isFormValid, build_order. simpl. rewrite Hd.
    rewrite andb_true_r. split; reflexivity.
Qed.

Lemma rates_make_form_valid_witness :
  let a := Samples.app1 in
  let '(r, a', l') := handleCalculateShipping Samples.srv_up a [] in
  isFormValid (page a')
  = (nonblank (name (page a)) && nonblank (email (page a))
     && nonblank (phone (page a))
     && (nonblank (Order.street1 (shippingAddress (page a)))
         && nonblank (Order.city (shippingAddress (page a)))
         && nonblank (Order.state (shippingAddress (page a)))
         && nonblank (Order.zip (shippingAddress (page a)))))%bool
  /\ build_order (page a')
     = build_order (setShippingMethod (Some Samples.rate_usps) (page a)).
Proof.
  apply (rates_make_form_valid Samples.srv_up Samples.app1 [] [] None
           Samples.rate_usps [Samples.rate_ups]).
  - reflexivity.
  - repeat split; discriminate.
  - split; reflexivity.
  - reflexivity.
Defined.

(** X14. Choosing a delivery method always drops the selected rate.
    After choosing shipping the form is invalid and no order can be built
    until rates are looked up again, even if a rate was selected before;
    after choosing pickup the form is valid exactly when the contact fields
    are non-blank, and the shipping cost is zero. *)
Theorem choosing_delivery_resets_rate (p : CheckoutState) :
  isFormValid (choose_shipping p) = false
  /\ build_order (choose_shipping p) = None
  /\ availableShippingRates (choose_shipping p) = []
  /\ isFormValid (choose_shipping (choose_pickup p)) = false
  /\ isFormValid (choose_pickup p)
     = (nonblank (name p) && nonblank (email p) && nonblank (phone p))%bool
  /\ shippingMethod (choose_pickup p) = None
  /\ availableShippingRates (choose_pickup p) = availableShippingRates p
  /\ shippingCostCents (choose_pickup p) = 0
  /\ shippingCostCents (choose_shipping p) = 0.
Proof.
  unfold isFormValid, build_order, choose_shipping, choose_pickup,
    shippingCostCents. simpl.
  rewrite !andb_false_r. repeat split; reflexivity.
Qed.

Lemma num_or_zero_some (x : Z) : num_or_zero (Some x) = x.
Proof.
  unfold num_or_zero. destruct (Z.eqb x 0) eqn:E; [|reflexivity].
  apply Z.eqb_eq in E. congruence.
Qed.

(** X15. The total shown on the page is the subtotal of the cached cart
    plus the rate of the very shipping method that [handleSubmit] would
    send: nothing but the zero pickup rate for pickup, the selected rate
    for shipping. With no cart cached the subtotal is zero. *)
Theorem total_matches_order (a : App) (orderData : Order.CreateOrderRequest) :
  build_order (page a) = Some orderData ->
  totalCents a
  = subtotalCents a + Order.rate_cents (Order.shipping_method orderData)
  /\ (deliveryMethod (page a) = pickup -> totalCents a = subtotalCents a)
  /\ (Store.cart (store a) = None -> subtotalCents a = 0)
  /\ (forall c, Store.cart (store a) = Some c ->
        subtotalCents a = CartTypes.subtotal_cents c).
Proof.
  unfold build_order, totalCents, shippingCostCents, subtotalCents.
  intros Hb. split; [|split; [|split]].
  - destruct (deliveryMethod (page a)).
    + injection Hb as <-. reflexivity.
    + destruct (shippingMethod (page a)) as [m|]; [|discriminate Hb].
      injection Hb as <-. unfold option_map. rewrite num_or_zero_some.
      reflexivity.
  - intros ->. lia.
  - intros ->. reflexivity.
  - intros c ->. unfold option_map. apply num_or_zero_some.
Qed.

Lemma total_matches_order_witness :
  totalCents MoreSamples.app_pickup
  = subtotalCents MoreSamples.app_pickup
    + Order.rate_cents (Order.shipping_method MoreSamples.order_pickup)
  /\ (deliveryMethod (page MoreSamples.app_pickup) = pickup ->
      totalCents MoreSamples.app_pickup = subtotalCents MoreSamples.app_pickup)
  /\ (Store.cart (store MoreSamples.app_pickup) = None ->
      subtotalCents MoreSamples.app_pickup = 0)
  /\ (forall c, Store.cart (store MoreSamples.app_pickup) = Some c ->
        subtotalCents MoreSamples.app_pickup = CartTypes.subtotal_cents c).
Proof.
  apply (total_matches_order MoreSamples.app_pickup MoreSamples.order_pickup).
  reflexivity.
Defined.

(** X16. Once [fetchCart] has settled, the page redirects to the product
    list exactly when the configuration has loaded and the cart now cached
    has no items: the fresh cart if the fetch succeeded, the earlier one if
    it failed. A page that never obtained a cart is never redirected. *)
Theorem redirect_after_fetch (srv : Server) (a : App) (l : list Event) :
  let '(r, a', l') := on_store (Store.fetchCart srv) a l in
  let cached :=
    match srv_get_cart srv l (Store.sessionId (store a)) with
    | inr data => Some data
    | inl _ => Store.cart (store a)
    end in
  Store.cart (store a') = cached
  /\ (redirects a' = true <->
      configLoading (page a) = false
      /\ exists c, cached = Some c /\ CartTypes.items c = [])
  /\ (cached = None -> redirects a' = false).
Proof.
  unfold on_store, lift, Store.fetchCart, bind, try_catch, set, get, request.
  cbv beta iota. destruct a as [st pg]. simpl.
  unfold redirects, items. simpl.
  destruct (srv_get_cart srv l (Store.sessionId st)) as [e|data]; simpl.
  - split; [reflexivity|]. destruct (Store.cart st) as [c|]; simpl.
    + split; [|discriminate].
      rewrite andb_true_iff, Nat.eqb_eq, negb_true_iff, length_zero_iff_nil.
      split.
      * intros [H1 H2]. split; [exact H2|]. exists c. split; [reflexivity|exact H1].
      * intros [H2 (c' & [= <-] & H1)]. split; assumption.
    + split; [|reflexivity]. split; [discriminate|].
      intros [_ (c & H & _)]. discriminate H.
  - split; [reflexivity|]. split; [|discriminate].
    rewrite andb_true_iff, Nat.eqb_eq, negb_true_iff, length_zero_iff_nil.
    split.
    + intros [H1 H2]. split; [exact H2|]. exists data. split; [reflexivity|exact H1].
    + intros [H2 (c' & [= <-] & H1)]. split; assumption.
Qed.

End CheckoutMore.

(* ===================================================================== *)
(** ** Further properties of import polling *)
(* ===================================================================== *)

Section PollingMore.
Import ImportPage.

Lemma failed_round (p : Page) :
  in_flight p = [] -> polling p = true ->
  run p (poll_round None)
  = Some {| currentImport := currentImport p; imports := imports p;
            in_flight := []; status_requests := S (status_requests p);
            list_refreshes := list_refreshes p |}.
Proof.
  destruct p as [cur imps fl nreq nref]. unfold polling. simpl.
  intros -> Hpoll. destruct cur as [c|]; [|discriminate Hpoll].
  rewrite Hpoll. reflexivity.
Qed.

(** X17. Failed status requests never end polling. After any number of
    polls that all fail, the same job is still watched and polled, one
    status request per poll has gone out, and neither the job list nor the
    refresh count has changed. *)
Theorem polling_survives_failures (c : Import) (l : list Import) (n : nat) :
  is_active (status c) = true ->
  run (watching c l) (poll_rounds (replicate n None))
  = Some {| currentImport := Some c; imports := l; in_flight := [];
            status_requests := n; list_refreshes := 0 |}
  /\ polling {| currentImport := Some c; imports := l; in_flight := [];
               status_requests := n; list_refreshes := 0 |} = true.
Proof.
  intros Hc. split; [|exact Hc].
  assert (G : forall k m,
    run {| currentImport := Some c; imports := l; in_flight := [];
           status_requests := m; list_refreshes := 0 |}
        (poll_rounds (replicate k None))
    = Some {| currentImport := Some c; imports := l; in_flight := [];
              status_requests := (k + m)%nat; list_refreshes := 0 |}).
  { induction k as [|k IH]; intros m; [reflexivity|].
    change (poll_rounds (replicate (S k) None))
      with (poll_round None ++ poll_rounds (replicate k (@None Import))).
    rewrite run_app, failed_round by (reflexivity || exact Hc).
    simpl. rewrite IH. do 2 f_equal. lia. }
  unfold watching. rewrite G. do 2 f_equal. lia.
Qed.

Lemma polling_survives_failures_witness :
  run (watching (job processing) [job processing])
      (poll_rounds (replicate 5 None))
  = Some {| currentImport := Some (job processing);
            imports := [job processing]; in_flight := [];
            status_requests := 5; list_refreshes := 0 |}
  /\ polling {| currentImport := Some (job processing);
               imports := [job processing]; in_flight := [];
               status_requests := 5; list_refreshes := 0 |} = true.
Proof.
  apply (polling_survives_failures (job processing) [job processing] 5).
  reflexivity.
Defined.

(** X18. A status response rewrites the job list in place: the list keeps
    its length and order, every entry whose id is the requested id becomes
    the returned job, every other entry is untouched, so a list without
    that id does not change at all. The list is re-read from the server
    only if the returned job is completed or failed; otherwise the returned
    job becomes the watched one. *)
Theorem status_response_updates_list (importId : Z) (d : Import) (p : Page) :
  let p' := fetchImportStatus_resolved importId d p in
  length (imports p') = length (imports p)
  /\ (forall k imp, imports p !! k = Some imp ->
        imports p' !! k = Some (if Z.eqb (id imp) importId then d else imp))
  /\ ((forall imp, List.In imp (imports p) -> id imp <> importId) ->
        imports p' = imports p)
  /\ (is_terminal (status d) = false ->
        currentImport p' = Some d /\ list_refreshes p' = list_refreshes p)
  /\ list_refreshes p'
     = (list_refreshes p + if is_terminal (status d) then 1 else 0)%nat.
Proof.
  unfold fetchImportStatus_resolved.
  destruct (is_terminal (status d)) eqn:Ht; simpl;
    (split; [apply length_map|]);
    (split; [intros k imp Hk;
             change (List.map ?f ?l) with (f <$> l);
             rewrite list_lookup_fmap, Hk; reflexivity|]);
    (split; [intros Hall; induction (imports p) as [|x r IH];
             [reflexivity|]; simpl;
             destruct (Z.eqb (id x) importId) eqn:E;
             [apply Z.eqb_eq in E; exfalso;
              apply (Hall x); [left; reflexivity|exact E]|];
             f_equal; apply IH; intros imp Hin; apply Hall; right; exact Hin|]).
  - split; [discriminate|lia].
  - split; [intros _; split; reflexivity|lia].
Qed.

End PollingMore.

(* ===================================================================== *)
(** ** Admin products page: filters, pages and the stock column *)
(* ===================================================================== *)

Section ProductListFacts.
Import JS JSMore ProductList.

Variable toLowerCase : list N -> list N.

Lemma keep_status (q : list N) (f : PublishedFilter) (t : list N)
  (x : Product) :
  keep toLowerCase q f t x = true ->
  match f with
  | f_archived => archived x = true
  | f_all => archived x = false
  | f_true => archived x = false /\ published x = true
  | f_false => archived x = false /\ published x = false
  end.
Proof.
  unfold keep.
  destruct (negb (falsy q) && _)%bool; [discriminate|].
  destruct f; simpl; destruct (archived x), (published x); simpl;
    try discriminate; try (vm_compute; discriminate); auto.
Qed.

(** X19. The filtered product list keeps the order of the fetched list and
    only drops entries. Archived products appear only under the 'archived'
    filter, and there only archived ones; 'true' and 'false' show only
    unarchived products with that published flag; a type filter other than
    'all' shows only that type; and with an empty search, 'all' and 'all'
    the list is exactly the unarchived products. *)
Theorem filteredProducts_spec (products : list Product) (q : list N)
  (f : PublishedFilter) (t : list N) :
  let result := filteredProducts toLowerCase products q f t in
  sublist result products
  /\ (forall x, x ∈ result ->
        x ∈ products
        /\ archived x = match f with f_archived => true | _ => false end
        /\ (f = f_true -> published x = true)
        /\ (f = f_false -> published x = false)
        /\ (t <> js "all" -> product_type x = t)
        /\ (q <> [] ->
            includes (toLowerCase (name x)) (toLowerCase q) = true))
  /\ filteredProducts toLowerCase products [] f_all (js "all")
     = List.filter (fun x => negb (archived x)) products.
Proof.
  intros result. subst result. unfold filteredProducts. split; [|split].
  - induction products as [|x r IH]; simpl; [constructor|].
    destruct (keep toLowerCase q f t x); [apply sublist_skip|apply sublist_cons];
      exact IH.
  - intros x Hx. apply list_elem_of_In, filter_In in Hx.
    destruct Hx as [Hin Hk]. split; [apply list_elem_of_In; exact Hin|].
    pose proof (keep_status q f t x Hk) as Hs.
    split; [destruct f; tauto|].
    split; [intros ->; tauto|]. split; [intros ->; tauto|].
    unfold keep in Hk.
    destruct (negb (falsy q) && _)%bool eqn:E1; [discriminate Hk|].
    split.
    + intros Ht.
      destruct (match f with f_all => _ | _ => _ end); [discriminate Hk|].
      destruct (bool_decide (t = js "all")) eqn:E2.
      { apply bool_decide_eq_true_1 in E2. contradiction. }
      destruct (bool_decide (product_type x = t)) eqn:E3.
      { apply bool_decide_eq_true_1 in E3. exact E3. }
      discriminate Hk.
    + intros Hq. destruct q as [|c q']; [contradiction|]. simpl in E1.
      apply negb_false_iff in E1. exact E1.
  - apply filter_ext. intros x. unfold keep. simpl.
    destruct (archived x); reflexivity.
Qed.

Lemma paginated_chunk (l : list Product) (k : nat) :
  paginatedProducts l (Z.of_nat (S k)) = take 25 (drop (25 * k) l).
Proof.
  unfold paginatedProducts, slice, clamp_index, itemsPerPage.
  replace (Z.of_nat (S k) - 1) with (Z.of_nat k) by lia.
  destruct (Z.ltb_spec (Z.of_nat k * 25) 0) as [H|_]; [lia|].
  destruct (Z.ltb_spec (Z.of_nat (S k) * 25) 0) as [H|_]; [lia|].
  destruct (Nat.le_gt_cases (length l) (25 * k)) as [Hge|Hlt].
  - rewrite (drop_ge l (25 * k)) by exact Hge.
    rewrite drop_ge by lia. rewrite !take_nil. reflexivity.
  - replace (Z.to_nat (Z.min (Z.of_nat k * 25) (Z.of_nat (length l))))
      with (25 * k)%nat by lia.
    destruct (Nat.le_gt_cases (length l) (25 * S k)) as [Hshort|Hlong].
    + rewrite !take_ge; [reflexivity| |]; rewrite length_drop; lia.
    + f_equal. lia.
Qed.

Lemma chunks_concat (l : list Product) :
  forall t : nat, (length l <= 25 * t)%nat ->
  concat (List.map (fun k => take 25 (drop (25 * k) l)) (seq 0 t)) = l.
Proof.
  intros t. revert l. induction t as [|t IH]; intros l Hlen.
  - destruct l; [reflexivity|simpl in Hlen; lia].
  - cbn [seq List.map concat]. rewrite <- seq_shift, List.map_map.
    rewrite Nat.mul_0_r, drop_0.
    transitivity (take 25 l ++ drop 25 l); [|apply take_drop]. f_equal.
    etransitivity; [|apply (IH (drop 25 l)); rewrite length_drop; lia].
    f_equal. apply List.map_ext. intros k. rewrite drop_drop.
    do 2 f_equal. lia.
Qed.

Lemma totalPages_bounds (l : list Product) :
  0 <= totalPages l
  /\ Z.of_nat (length l) <= 25 * totalPages l
  /\ 25 * totalPages l < Z.of_nat (length l) + 25.
Proof.
  unfold totalPages, itemsPerPage.
  pose proof (Z.div_mod (Z.of_nat (length l) + (25 - 1)) 25) as Hdm.
  pose proof (Z.mod_pos_bound (Z.of_nat (length l) + (25 - 1)) 25) as Hm.
  assert (0 <= (Z.of_nat (length l) + (25 - 1)) / 25)
    by (apply Z.div_pos; lia).
  lia.
Qed.

(** X20. The pages 1 to [totalPages] cut the filtered list into
    consecutive pieces: put one after the other they give the list back,
    every page before the last holds exactly 25 products, no page holds
    more, and every page after the last is empty. *)
Theorem pages_partition (l : list Product) :
  concat (List.map (fun k => paginatedProducts l (Z.of_nat (S k)))
            (seq 0 (Z.to_nat (totalPages l)))) = l
  /\ (forall k : nat, (length (paginatedProducts l (Z.of_nat (S k))) <= 25)%nat)
  /\ (forall k : nat, Z.of_nat (S k) < totalPages l ->
        length (paginatedProducts l (Z.of_nat (S k))) = 25%nat)
  /\ (forall k : nat, totalPages l < Z.of_nat (S k) ->
        paginatedProducts l (Z.of_nat (S k)) = []).
Proof.
  pose proof (totalPages_bounds l) as (H0 & H1 & H2).
  split; [|split; [|split]].
  - rewrite (map_ext _ (fun k => take 25 (drop (25 * k) l)))
      by (intros k; apply paginated_chunk).
    apply chunks_concat. lia.
  - intros k. rewrite paginated_chunk, length_take. lia.
  - intros k Hk. rewrite paginated_chunk, length_take, length_drop. lia.
  - intros k Hk. rewrite paginated_chunk. rewrite drop_ge by lia.
    apply take_nil.
Qed.

(** X21. On a page between 1 and [totalPages], the page shown is not
    empty, the footer 'Showing x to y' spans exactly the products of that
    page, and the 'Previous' and 'Next' buttons never leave the range:
    'Previous' on page 1 and 'Next' on the last page stay where they are. *)
Theorem page_navigation (l : list Product) (currentPage : Z) :
  1 <= currentPage <= totalPages l ->
  paginatedProducts l currentPage <> []
  /\ showing_to l currentPage - showing_from currentPage + 1
     = Z.of_nat (length (paginatedProducts l currentPage))
  /\ 1 <= previous_page currentPage <= totalPages l
  /\ 1 <= next_page l currentPage <= totalPages l
  /\ previous_page 1 = 1
  /\ next_page l (totalPages l) = totalPages l.
Proof.
  intros Hrange.
  pose proof (totalPages_bounds l) as (H0 & H1 & H2).
  assert (Hk : currentPage = Z.of_nat (S (Z.to_nat (currentPage - 1))))
    by lia.
  remember (Z.to_nat (currentPage - 1)) as k eqn:Ek.
  assert (Hlen : length (paginatedProducts l currentPage)
                 = Nat.min 25 (length l - 25 * k)).
  { rewrite Hk, paginated_chunk, length_take, length_drop. reflexivity. }
  unfold showing_to, showing_from, previous_page, next_page, itemsPerPage.
  split; [|split; [|split; [|split; [|split]]]]; try lia.
  intros Hnil. rewrite Hnil in Hlen. cbn [length] in Hlen. lia.
Qed.

Lemma page_navigation_witness :
  let l := replicate 30 (Build_Product 1 [] [] [] 100 [] true false false
                           None 0 0 none None None true true) in
  paginatedProducts l 2 <> []
  /\ showing_to l 2 - showing_from 2 + 1
     = Z.of_nat (length (paginatedProducts l 2))
  /\ 1 <= previous_page 2 <= totalPages l
  /\ 1 <= next_page l 2 <= totalPages l
  /\ previous_page 1 = 1
  /\ next_page l (totalPages l) = totalPages l.
Proof.
  apply (page_navigation
           (replicate 30 (Build_Product 1 [] [] [] 100 [] true false false
                            None 0 0 none None None true true)) 2).
  vm_compute. split; discriminate.
Defined.


End ProductListFacts.

(* ===================================================================== *)
(** ** Variant options, collection check boxes, query parameters *)
(* ===================================================================== *)

Section VariantOptionFacts.
Import JS JSMore VariantOptions.

Lemma array_includes_true (l : list (list N)) (x : list N) :
  array_includes l x = true <-> x ∈ l.
Proof. unfold array_includes. apply bool_decide_eq_true. Qed.

Lemma array_includes_false (l : list (list N)) (x : list N) :
  array_includes l x = false <-> x ∉ l.
Proof. unfold array_includes. apply bool_decide_eq_false. Qed.

(** Appending the entries of [extra] that [l] lacks keeps [l] free of
    duplicates. *)
Lemma NoDup_app_missing (l extra : list (list N)) :
  NoDup l -> NoDup extra ->
  NoDup (l ++ List.filter (fun x => negb (array_includes l x)) extra).
Proof.
  intros Hl He. apply NoDup_app. split; [exact Hl|]. split.
  - intros x Hx Hin. apply list_elem_of_In, filter_In in Hin.
    destruct Hin as [_ Hn]. apply negb_true_iff, array_includes_false in Hn.
    contradiction.
  - apply NoDup_ListNoDup, List.NoDup_filter, NoDup_ListNoDup. exact He.
Qed.

Lemma NoDup_remove (l : list (list N)) (x : list N) :
  NoDup l -> NoDup (List.filter (fun s => negb (bool_decide (s = x))) l).
Proof.
  intros H. apply NoDup_ListNoDup, List.NoDup_filter, NoDup_ListNoDup.
  exact H.
Qed.

Lemma NoDup_add (l : list (list N)) (x : list N) :
  NoDup l -> array_includes l x = false -> NoDup (l ++ [x]).
Proof.
  intros H Hx. apply array_includes_false in Hx.
  apply NoDup_app. split; [exact H|]. split.
  - intros y Hy Hin. apply list_elem_of_singleton in Hin. subst y.
    contradiction.
  - apply NoDup_singleton.
Qed.

Lemma presets_NoDup :
  (forall k, NoDup (SIZE_PRESETS k)) /\ (forall k, NoDup (COLOR_PRESETS k)).
Proof.
  split; intros k.
  - assert (H : bool_decide (NoDup (SIZE_PRESETS k)) = true)
      by (destruct k; vm_compute; reflexivity).
    apply bool_decide_eq_true_1 in H. exact H.
  - assert (H : bool_decide (NoDup (COLOR_PRESETS k)) = true)
      by (destruct k; vm_compute; reflexivity).
    apply bool_decide_eq_true_1 in H. exact H.
Qed.

Lemma presets_nonempty_entries :
  (forall k, [] ∉ SIZE_PRESETS k) /\ (forall k, [] ∉ COLOR_PRESETS k).
Proof.
  split; intros k.
  - assert (H : bool_decide ([] ∉ SIZE_PRESETS k) = true)
      by (destruct k; vm_compute; reflexivity).
    apply bool_decide_eq_true_1 in H. exact H.
  - assert (H : bool_decide ([] ∉ COLOR_PRESETS k) = true)
      by (destruct k; vm_compute; reflexivity).
    apply bool_decide_eq_true_1 in H. exact H.
Qed.

Lemma unique_from_spec (l seen : list (list N)) :
  NoDup (unique_from seen l)
  /\ (forall x, x ∈ unique_from seen l -> x ∈ l /\ x ∉ seen).
Proof.
  revert seen. induction l as [|y r IH]; intros seen; simpl.
  - split; [apply NoDup_nil_2|]. intros x Hx. inversion Hx.
  - destruct (array_includes seen y) eqn:E.
    + destruct (IH seen) as [H1 H2]. split; [exact H1|].
      intros x Hx. destruct (H2 x Hx) as [Ha Hb].
      split; [right; exact Ha|exact Hb].
    + apply array_includes_false in E.
      destruct (IH (y :: seen)) as [H1 H2]. split.
      * apply NoDup_cons. split; [|exact H1].
        intros Hin. destruct (H2 y Hin) as [_ Hn]. apply Hn. left.
      * intros x Hx. apply elem_of_cons in Hx. destruct Hx as [->|Hx].
        { split; [left|exact E]. }
        destruct (H2 x Hx) as [Ha Hb]. split; [right; exact Ha|].
        intros Hs. apply Hb. right. exact Hs.
Qed.

Lemma truthy_labels_nonempty (column : list (option (list N))) :
  [] ∉ truthy_labels column.
Proof.
  unfold truthy_labels. intros Hin. apply list_elem_of_omap in Hin.
  destruct Hin as (v & _ & Hv). destruct v as [s|]; [|discriminate Hv].
  destruct s; simpl in Hv; [discriminate Hv|]. discriminate Hv.
Qed.

Lemma edit_keeps_tidy (e : Edit) (o : Options) : tidy o -> tidy (edit e o).
Proof.
  intros (Hs & Hc & Es & Ec).
  destruct presets_NoDup as [Ps Pc].
  destruct presets_nonempty_entries as [Qs Qc].
  destruct e as [sc cc| |size| |color|k|k|text|text]; simpl.
  - unfold tidy, variants_loaded. simpl.
    split; [apply unique_from_spec|]. split; [apply unique_from_spec|].
    split; intros Hin; apply unique_from_spec in Hin; destruct Hin as [Hin _];
      exact (truthy_labels_nonempty _ Hin).
  - unfold addSize.
    destruct (negb (falsy (trim (newSize o)))) eqn:E1; simpl;
      [|repeat split; assumption].
    destruct (array_includes (sizes o) (trim (newSize o))) eqn:E2; simpl;
      [repeat split; assumption|].
    repeat split; simpl; try assumption.
    + apply NoDup_add; assumption.
    + intros Hin. apply elem_of_app in Hin. destruct Hin as [Hin|Hin];
        [contradiction|]. apply list_elem_of_singleton in Hin.
      rewrite <- Hin in E1. discriminate E1.
  - repeat split; simpl; try assumption.
    + apply NoDup_remove. exact Hs.
    + intros Hin. apply list_elem_of_In, filter_In in Hin.
      destruct Hin as [Hin _]. apply Es, list_elem_of_In. exact Hin.
  - unfold addColor.
    destruct (negb (falsy (trim (newColor o)))) eqn:E1; simpl;
      [|repeat split; assumption].
    destruct (array_includes (colors o) (trim (newColor o))) eqn:E2; simpl;
      [repeat split; assumption|].
    repeat split; simpl; try assumption.
    + apply NoDup_add; assumption.
    + intros Hin. apply elem_of_app in Hin. destruct Hin as [Hin|Hin];
        [contradiction|]. apply list_elem_of_singleton in Hin.
      rewrite <- Hin in E1. discriminate E1.
  - repeat split; simpl; try assumption.
    + apply NoDup_remove. exact Hc.
    + intros Hin. apply list_elem_of_In, filter_In in Hin.
      destruct Hin as [Hin _]. apply Ec, list_elem_of_In. exact Hin.
  - unfold applySizePreset. destruct (Nat.ltb 0 _); simpl;
      [|repeat split; assumption].
    repeat split; simpl; try assumption.
    + apply NoDup_app_missing; [exact Hs|apply Ps].
    + intros Hin. apply elem_of_app in Hin. destruct Hin as [Hin|Hin];
        [contradiction|]. apply list_elem_of_In, filter_In in Hin.
      destruct Hin as [Hin _]. apply (Qs k), list_elem_of_In. exact Hin.
  - unfold applyColorPreset. destruct (Nat.ltb 0 _); simpl;
      [|repeat split; assumption].
    repeat split; simpl; try assumption.
    + apply NoDup_app_missing; [exact Hc|apply Pc].
    + intros Hin. apply elem_of_app in Hin. destruct Hin as [Hin|Hin];
        [contradiction|]. apply list_elem_of_In, filter_In in Hin.
      destruct Hin as [Hin _]. apply (Qc k), list_elem_of_In. exact Hin.
  - repeat split; assumption.
  - repeat split; assumption.
Qed.

(** X23. However the admin types, adds, removes and applies presets,
    starting from the empty option lists, the size list and the colour list
    never hold a duplicate and never hold an empty label. *)
Theorem options_stay_tidy (es : list Edit) :
  let o := fold_left (fun o e => edit e o) es initial in
  NoDup (sizes o) /\ NoDup (colors o)
  /\ ([] ∉ sizes o) /\ ([] ∉ colors o).
Proof.
  assert (G : forall es o, tidy o ->
            tidy (fold_left (fun o e => edit e o) es o)).
  { clear es. induction es as [|e r IH]; intros o Ho; [exact Ho|].
    simpl. apply IH, edit_keeps_tidy, Ho. }
  apply (G es initial). unfold tidy, initial. simpl.
  repeat split; try apply NoDup_nil_2; apply not_elem_of_nil.
Qed.

End VariantOptionFacts.

Section VariantOptionEdits.
Import JS JSMore VariantOptions.

Lemma filter_absent (l : list (list N)) (x : list N) :
  x ∉ l -> List.filter (fun s => negb (bool_decide (s = x))) l = l.
Proof.
  induction l as [|y r IH]; intros Hx; simpl; [reflexivity|].
  apply not_elem_of_cons in Hx. destruct Hx as [Hne Hr].
  rewrite bool_decide_eq_false_2 by congruence. simpl.
  f_equal. apply IH, Hr.
Qed.

Lemma filter_all_included (l preset : list (list N)) :
  (forall s, s ∈ preset -> s ∈ l) ->
  List.filter (fun s => negb (array_includes l s)) preset = [].
Proof.
  induction preset as [|x r IH]; intros Hl; [reflexivity|].
  simpl. assert (Hx : array_includes l x = true).
  { apply array_includes_true, Hl. left. }
  rewrite Hx. simpl. apply IH. intros s Hs. apply Hl. right. exact Hs.
Qed.

(** X24. [addSize] appends the trimmed input and clears the input box,
    unless the trimmed input is empty or already listed, in which case it
    changes nothing. Removing a label that was just added gives the former
    list back, a removed label is never left in the list, and pressing
    'add' a second time has no further effect. *)
Theorem addSize_removeSize (o : Options) :
  let label := trim (newSize o) in
  (label <> [] -> label ∉ sizes o ->
     sizes (addSize o) = sizes o ++ [label] /\ newSize (addSize o) = [])
  /\ (label = [] \/ label ∈ sizes o -> addSize o = o)
  /\ (label ∉ sizes o -> sizes (removeSize label (addSize o)) = sizes o)
  /\ (forall size, size ∉ sizes (removeSize size o))
  /\ addSize (addSize o) = addSize o
  /\ colors (addSize o) = colors o.
Proof.
  intros label. subst label. unfold addSize.
  split; [|split; [|split; [|split; [|split]]]].
  - intros Hne Hnew. apply array_includes_false in Hnew. rewrite Hnew.
    destruct (trim (newSize o)); [contradiction|]. simpl. split; reflexivity.
  - intros [He|Hin].
    + rewrite He. reflexivity.
    + apply array_includes_true in Hin. rewrite Hin, andb_false_r.
      reflexivity.
  - intros Hnew. pose proof Hnew as Hnew'.
    apply array_includes_false in Hnew. rewrite Hnew.
    destruct (falsy (trim (newSize o))); simpl.
    + apply filter_absent, Hnew'.
    + rewrite List.filter_app. simpl.
      rewrite bool_decide_eq_true_2 by reflexivity. simpl.
      rewrite app_nil_r. apply filter_absent, Hnew'.
  - intros size Hin. simpl in Hin. apply list_elem_of_In, filter_In in Hin.
    destruct Hin as [_ Hn]. rewrite bool_decide_eq_true_2 in Hn by reflexivity.
    discriminate Hn.
  - destruct (negb (falsy (trim (newSize o)))
              && negb (array_includes (sizes o) (trim (newSize o))))%bool
      eqn:E; simpl; [reflexivity|]. rewrite E. reflexivity.
  - destruct (negb (falsy (trim (newSize o))) && _)%bool; reflexivity.
Qed.

(** X25. Applying a size preset adds exactly the preset sizes that are
    missing, after the sizes already listed and in preset order; afterwards
    every size of the preset is listed. Applying the same preset again
    changes nothing and reports that all sizes are already added. *)
Theorem applySizePreset_idempotent (k : SizePreset) (o : Options) :
  let '(o1, t1) := applySizePreset k o in
  sizes o1
  = sizes o ++ List.filter (fun s => negb (array_includes (sizes o) s))
                 (SIZE_PRESETS k)
  /\ (forall s, s ∈ SIZE_PRESETS k -> s ∈ sizes o1)
  /\ applySizePreset k o1
     = (o1, ToastInfo (js "All sizes from this preset are already added"))
  /\ (colors o1, newSize o1, newColor o1) = (colors o, newSize o, newColor o).
Proof.
  unfold applySizePreset.
  remember (List.filter (fun s => negb (array_includes (sizes o) s))
              (SIZE_PRESETS k)) as missing eqn:Hm.
  assert (Hcover : forall s, s ∈ SIZE_PRESETS k -> s ∈ sizes o ++ missing).
  { intros s Hs. destruct (array_includes (sizes o) s) eqn:E.
    - apply array_includes_true in E. apply elem_of_app. left. exact E.
    - apply elem_of_app. right. subst missing.
      apply list_elem_of_In, filter_In.
      split; [apply list_elem_of_In; exact Hs|]. rewrite E. reflexivity. }
  destruct (Nat.ltb 0 (length missing)) eqn:E; cbn [fst snd sizes colors
    newSize newColor].
  - split; [reflexivity|]. split; [exact Hcover|]. split; [|reflexivity].
    rewrite (filter_all_included _ _ Hcover). reflexivity.
  - apply Nat.ltb_ge in E.
    assert (missing = []) as Hnil by (destruct missing; [reflexivity|simpl in E; lia]).
    rewrite Hnil in *. rewrite app_nil_r in *.
    split; [reflexivity|]. split; [exact Hcover|]. split; [|reflexivity].
    rewrite <- Hm. reflexivity.
Qed.

End VariantOptionEdits.

Section CollectionToggle.
Import JS ProductForm.

Lemma filter_out_absent (l : list Z) (x : Z) :
  x ∉ l -> List.filter (fun i => negb (Z.eqb i x)) l = l.
Proof.
  induction l as [|y r IH]; intros Hx; simpl; [reflexivity|].
  apply not_elem_of_cons in Hx. destruct Hx as [Hne Hr].
  destruct (Z.eqb_spec y x); [congruence|]. simpl. f_equal. apply IH, Hr.
Qed.

(** X26. Ticking a collection check box flips the membership of that
    collection in [collection_ids] and of no other: an absent id is
    appended, a present id is removed everywhere. A list without duplicates
    stays so, and ticking an absent id twice restores the list. The
    'unpublished' warning is raised exactly when an id is added whose
    collection is known and unpublished; removing never warns. *)
Theorem handleCollectionToggle_spec (allCollections : list Collection)
  (collectionId : Z) (currentIds : list Z) :
  let '(newIds, warning) :=
    handleCollectionToggle allCollections collectionId currentIds in
  (collectionId ∈ newIds <-> collectionId ∉ currentIds)
  /\ (forall other, other <> collectionId ->
        (other ∈ newIds <-> other ∈ currentIds))
  /\ (NoDup currentIds -> NoDup newIds)
  /\ (collectionId ∉ currentIds ->
        fst (handleCollectionToggle allCollections collectionId newIds)
        = currentIds)
  /\ (warning <> None <->
        (collectionId ∉ currentIds)
        /\ exists c, find_collection allCollections collectionId = Some c
                     /\ published c = false)
  /\ (forall c, warning <> None ->
        find_collection allCollections collectionId = Some c ->
        warning = Some (unpublished_warning c) /\ id c = collectionId).
Proof.
  unfold handleCollectionToggle.
  destruct (decide (collectionId ∈ currentIds)) as [Hin|Hout].
  - rewrite (bool_decide_eq_true_2 _ Hin). simpl.
    split; [|split; [|split; [|split; [|split]]]].
    + split; [|intros H; contradiction].
      intros H. apply list_elem_of_In, filter_In in H. destruct H as [_ H].
      rewrite Z.eqb_refl in H. discriminate H.
    + intros other Hne. rewrite !list_elem_of_In, filter_In.
      split; [intros [H _]; exact H|]. intros H. split; [exact H|].
      destruct (Z.eqb_spec other collectionId); [contradiction|reflexivity].
    + intros Hnd. apply NoDup_ListNoDup, List.NoDup_filter, NoDup_ListNoDup.
      exact Hnd.
    + intros H. contradiction.
    + destruct (find_collection allCollections collectionId);
        (split; [intros H; contradiction|]); intros [H _]; contradiction.
    + intros c H. destruct (find_collection allCollections collectionId);
        contradiction.
  - rewrite (bool_decide_eq_false_2 _ Hout). simpl.
    split; [|split; [|split; [|split; [|split]]]].
    + split; [intros _; exact Hout|]. intros _. apply elem_of_app. right.
      apply list_elem_of_singleton. reflexivity.
    + intros other Hne. rewrite elem_of_app, list_elem_of_singleton. tauto.
    + intros Hnd. apply NoDup_app. split; [exact Hnd|]. split.
      * intros x Hx Hs. apply list_elem_of_singleton in Hs. subst x.
        contradiction.
      * apply NoDup_singleton.
    + intros _.
      assert (Hnow : collectionId ∈ currentIds ++ [collectionId]).
      { apply elem_of_app. right. apply list_elem_of_singleton. reflexivity. }
      rewrite (bool_decide_eq_true_2 _ Hnow). simpl.
      rewrite List.filter_app. simpl. rewrite Z.eqb_refl. simpl.
      rewrite app_nil_r. apply filter_out_absent, Hout.
    + destruct (find_collection allCollections collectionId) as [c|] eqn:Ef.
      * destruct (published c) eqn:Ep; simpl.
        { split; [intros H; contradiction|].
          intros [_ (c' & [= <-] & Hp)]. congruence. }
        { split; [|discriminate]. intros _. split; [exact Hout|].
          exists c. split; [reflexivity|exact Ep]. }
      * split; [intros H; contradiction|].
        intros [_ (c' & Hc & _)]. discriminate Hc.
    + intros c Hw Hf. rewrite Hf in *.
      destruct (published c); simpl in *; [contradiction|].
      split; [reflexivity|]. unfold find_collection in Hf.
      apply find_some in Hf. destruct Hf as [_ Hid].
      apply Z.eqb_eq in Hid. exact Hid.
Qed.

End CollectionToggle.

Section QueryParams.
Import JS JSMore ProductsPage.




















End QueryParams.

(* ===================================================================== *)
(** ** Image upload *)
(* ===================================================================== *)

Section ImageUploadFacts.
Import JS JSMore Eff Async ImageUpload.

Ltac unfold_upload :=
  unfold uploadImage, getImages, getToken, finally, try_catch, bind, set,
    emit, await, ret; cbv beta iota.

(** What one [uploadImage] does on any server. *)
Lemma uploadImage_runs (srv : Server) (productId : Z) (file : File)
  (st : State) (l : list Event) :
  exists new,
    uploadImage srv productId file st l
    = (Ok tt, setUploading false st, l ++ new)
    /\ count is_toast new = 1%nat
    /\ (count is_upload new <= 1)%nat
    /\ (count is_images_change new <= 1)%nat
    /\ (count is_images_change new = 1%nat ->
        last new = Some (EToastSuccess (js "Image uploaded successfully!"))).
Proof.
  unfold_upload.
  destruct (srv_token srv l) as [e|token]; cbv beta iota.
  { eexists. rewrite <- !app_assoc. split; [reflexivity|].
    vm_compute. repeat split; try lia; discriminate. }
  destruct (srv_upload srv _ file token) as [e|key]; cbv beta iota.
  { eexists. rewrite <- !app_assoc. split; [reflexivity|].
    vm_compute. repeat split; try lia; discriminate. }
  destruct (srv_images srv _ productId token) as [e|current]; cbv beta iota.
  { eexists. rewrite <- !app_assoc. split; [reflexivity|].
    vm_compute. repeat split; try lia; discriminate. }
  destruct (srv_create_image srv _ productId _ token) as [e|[]];
    cbv beta iota.
  { eexists. rewrite <- !app_assoc. split; [reflexivity|].
    vm_compute. repeat split; try lia; discriminate. }
  destruct (srv_images srv _ productId token) as [e|fresh]; cbv beta iota.
  { eexists. rewrite <- !app_assoc. split; [reflexivity|].
    vm_compute. repeat split; try lia; discriminate. }
  eexists. rewrite <- !app_assoc. split; [reflexivity|].
  vm_compute. repeat split; try lia.
Qed.

Lemma count_app (f : Event -> bool) (a b : list Event) :
  count f (a ++ b) = (count f a + count f b)%nat.
Proof. unfold count. rewrite List.filter_app, length_app. reflexivity. Qed.

(** The loop of [handleFileSelect] and [handleDrop], over the files that
    [sel] lets through. *)
Lemma uploads_loop (srv : Server) (productId : Z) (sel : File -> bool)
  (files : list File) :
  forall (st : State) (l : list Event),
  exists new,
    for_each files
      (fun file => if sel file then uploadImage srv productId file
                   else Async.ret tt) st l
    = (Ok tt,
       match List.filter sel files with
       | [] => st
       | _ => setUploading false st
       end,
       l ++ new)
    /\ count is_toast new = length (List.filter sel files)
    /\ (count is_upload new <= length (List.filter sel files))%nat
    /\ (count is_images_change new <= length (List.filter sel files))%nat.
Proof.
  induction files as [|file r IH]; intros st l.
  - exists []. simpl. rewrite app_nil_r. repeat split; reflexivity || lia.
  - simpl. unfold Async.bind. destruct (sel file) eqn:Es.
    + destruct (uploadImage_runs srv productId file st l)
        as (n1 & H1 & T1 & U1 & C1 & _).
      rewrite H1.
      destruct (IH (setUploading false st) (l ++ n1))
        as (n2 & H2 & T2 & U2 & C2).
      rewrite H2. exists (n1 ++ n2). rewrite <- app_assoc.
      split.
      * f_equal. f_equal. destruct (List.filter sel r); reflexivity.
      * rewrite !count_app. simpl. repeat split; lia.
    + unfold Async.ret at 1.
      destruct (IH st l) as (n2 & H2 & T2 & U2 & C2).
      rewrite H2. exists n2. repeat split; assumption.
Qed.

Lemma filter_all (files : list File) :
  List.filter (fun _ : File => true) files = files.
Proof. induction files as [|f r IH]; simpl; [|rewrite IH]; reflexivity. Qed.

(** X28. [deleteImage] and [setPrimaryImage] never reject and never
    change the component state. If the admin declines the confirmation,
    [deleteImage] sends nothing. Otherwise each of them ends in exactly one
    toast; [onImagesChange] is called at most once, only after the change
    and the re-read both succeeded, and then the toast is the success one.
    On any failure the toast is the fixed text of the action, whatever the
    server reported. *)
Theorem image_actions_settle (srv : Server) (productId imageId : Z)
  (st : State) (l : list Event) :
  (exists new,
     deleteImage srv productId imageId st l
     = (Ok tt, st,
        l ++ EConfirm (js "Are you sure you want to delete this image?")
             :: new)
     /\ (user_confirms srv l = false -> new = [])
     /\ (user_confirms srv l = true -> count is_toast new = 1%nat)
     /\ (count is_images_change new <= 1)%nat
     /\ (count is_images_change new = 1%nat ->
         last new = Some (EToastSuccess (js "Image deleted successfully!")))
     /\ (forall msg, last new = Some (EToastError msg) ->
         msg = js "Failed to delete image"))
  /\ (exists new,
        setPrimaryImage srv productId imageId st l = (Ok tt, st, l ++ new)
        /\ count is_toast new = 1%nat
        /\ (count is_images_change new <= 1)%nat
        /\ (count is_images_change new = 1%nat ->
            last new = Some (EToastSuccess (js "Primary image updated!")))
        /\ (forall msg, last new = Some (EToastError msg) ->
            msg = js "Failed to set primary image")).
Proof.
  split.
  - unfold deleteImage.
    destruct (user_confirms srv l) eqn:Ec; simpl negb; cbv iota.
    2:{ exists []. split; [reflexivity|].
        repeat split; try reflexivity; try discriminate.
        vm_compute. lia. }
    unfold getImages, getToken, try_catch, bind, emit, await;
      cbv beta iota.
    destruct (srv_token srv _) as [e|token]; cbv beta iota.
    { eexists. rewrite <- !app_assoc. split; [reflexivity|].
      vm_compute. repeat split; try lia; try discriminate; congruence. }
    destruct (srv_delete_image srv _ productId imageId token) as [e|[]];
      cbv beta iota.
    { eexists. rewrite <- !app_assoc. split; [reflexivity|].
      vm_compute. repeat split; try lia; try discriminate; congruence. }
    destruct (srv_images srv _ productId token) as [e|fresh]; cbv beta iota.
    { eexists. rewrite <- !app_assoc. split; [reflexivity|].
      vm_compute. repeat split; try lia; try discriminate; congruence. }
    eexists. rewrite <- !app_assoc. split; [reflexivity|].
    vm_compute. repeat split; try lia; try discriminate; congruence.
  - unfold setPrimaryImage, getImages, getToken, try_catch, bind, emit, await;
      cbv beta iota.
    destruct (srv_token srv l) as [e|token]; cbv beta iota.
    { eexists. rewrite <- !app_assoc. split; [reflexivity|].
      vm_compute. repeat split; try lia; try discriminate; congruence. }
    destruct (srv_set_primary srv _ productId imageId token) as [e|[]];
      cbv beta iota.
    { eexists. rewrite <- !app_assoc. split; [reflexivity|].
      vm_compute. repeat split; try lia; try discriminate; congruence. }
    destruct (srv_images srv _ productId token) as [e|fresh]; cbv beta iota.
    { eexists. rewrite <- !app_assoc. split; [reflexivity|].
      vm_compute. repeat split; try lia; try discriminate; congruence. }
    eexists. rewrite <- !app_assoc. split; [reflexivity|].
    vm_compute. repeat split; try lia; try discriminate; congruence.
Qed.

(** X29. A successful [uploadImage] sends, in this order, the token
    request, the file upload, a read of the product's images, the creation
    of the image record, and a second read; then it hands the second list
    to [onImagesChange] and shows the success toast. The record is created
    at the position equal to the number of images the first read returned,
    under the file name as alt text, and as primary exactly when that
    number is zero. *)
Theorem uploadImage_success (srv : Server) (productId : Z) (file : File)
  (st : State) (l : list Event) (token : option (list N)) (key : list N)
  (current fresh : list ProductImage) :
  let record :=
    {| new_s3_key := key; new_alt_text := name file;
       new_position := Z.of_nat (length current);
       new_primary := Nat.eqb (length current) 0 |} in
  let l1 := l ++ [ECall GetToken] in
  let l2 := l1 ++ [ECall (PostUpload file token)] in
  let l3 := l2 ++ [ECall (GetImages productId token)] in
  let l4 := l3 ++ [ECall (PostImage productId record token)] in
  srv_token srv l = inr token ->
  srv_upload srv l1 file token = inr key ->
  srv_images srv l2 productId token = inr current ->
  srv_create_image srv l3 productId record token = inr tt ->
  srv_images srv l4 productId token = inr fresh ->
  uploadImage srv productId file st l
  = (Ok tt, setUploading false st,
     l4 ++ [ECall (GetImages productId token); EImagesChange fresh;
            EToastSuccess (js "Image uploaded successfully!")])
  /\ (new_primary record = true <-> current = []).
Proof.
  intros record l1 l2 l3 l4 Ht Hu Hc Hp Hf. subst record l1 l2 l3 l4.
  split.
  - unfold_upload. rewrite Ht. cbv beta iota. rewrite Hu. cbv beta iota.
    rewrite Hc. cbv beta iota. rewrite Hp. cbv beta iota.
    rewrite Hf. cbv beta iota. rewrite <- !app_assoc. reflexivity.
  - simpl. rewrite Nat.eqb_eq. apply length_zero_iff_nil.
Qed.

Lemma uploadImage_success_witness :
  let srv := srv_holding [] in
  let record :=
    {| new_s3_key := js "uploads/abc.png"; new_alt_text := name photo;
       new_position := Z.of_nat (length (@nil ProductImage));
       new_primary := Nat.eqb (length (@nil ProductImage)) 0 |} in
  let token := Some (js "jwt") in
  uploadImage srv 5 photo {| uploading := false; dragOver := false |} []
  = (Ok tt, setUploading false {| uploading := false; dragOver := false |},
     ((([] ++ [ECall GetToken]) ++ [ECall (PostUpload photo token)])
       ++ [ECall (GetImages 5 token)]) ++ [ECall (PostImage 5 record token)]
     ++ [ECall (GetImages 5 token); EImagesChange [];
         EToastSuccess (js "Image uploaded successfully!")])
  /\ (new_primary record = true <-> @nil ProductImage = []).
Proof.
  apply (uploadImage_success (srv_holding []) 5 photo
           {| uploading := false; dragOver := false |} []
           (Some (js "jwt")) (js "uploads/abc.png") [] []); reflexivity.
Defined.

(** X30. [handleFileSelect] and [handleDrop] never reject and work
    through their files one after the other, whatever fails on the way:
    every selected file, and every dropped file whose type starts with
    'image/', ends in exactly one toast, success or error; dropped files of
    other types are skipped without any request. At most one upload and at
    most one [onImagesChange] happen per such file, and [handleDrop] always
    clears the drag highlight. *)
Theorem every_file_is_reported (srv : Server) (productId : Z)
  (files : list File) (st : State) (l : list Event) :
  (exists st' new,
     handleFileSelect srv productId files st l = (Ok tt, st', l ++ new)
     /\ count is_toast new = length files
     /\ (count is_upload new <= length files)%nat
     /\ (count is_images_change new <= length files)%nat
     /\ dragOver st' = dragOver st)
  /\ (exists st' new,
        handleDrop srv productId files st l = (Ok tt, st', l ++ new)
        /\ count is_toast new = length (List.filter is_image_file files)
        /\ (count is_upload new
            <= length (List.filter is_image_file files))%nat
        /\ (count is_images_change new
            <= length (List.filter is_image_file files))%nat
        /\ dragOver st' = false
        /\ (List.filter is_image_file files = [] -> new = [])).
Proof.
  split.
  - destruct (uploads_loop srv productId (fun _ => true) files st l)
      as (new & H & T & U & C).
    rewrite filter_all in *.
    eexists. exists new. split; [exact H|].
    repeat split; try assumption. destruct files; reflexivity.
  - unfold handleDrop, Async.bind, Async.set.
    destruct (uploads_loop srv productId is_image_file files
                (setDragOver false st) l) as (new & H & T & U & C).
    unfold is_image_file in *. rewrite H.
    eexists. exists new. split; [reflexivity|].
    repeat split; try assumption.
    + destruct (List.filter _ files); reflexivity.
    + intros Hnone. rewrite Hnone in T. unfold count in T.
      destruct new as [|e new']; [reflexivity|].
      (* no image file: the loop only skipped *)
      clear U C. revert H. rewrite Hnone.
      assert (G : forall fs s0 l0,
        List.filter (fun file => startsWith (type file) (js "image/")) fs = [] ->
        for_each fs
          (fun file => if startsWith (type file) (js "image/")
                       then uploadImage srv productId file
                       else Async.ret tt) s0 l0 = (Ok tt, s0, l0)).
      { induction fs as [|f r IH]; intros s0 l0 Hf; [reflexivity|].
        simpl in *. unfold Async.bind.
        destruct (startsWith (type f) (js "image/")); [discriminate Hf|].
        unfold Async.ret at 1. apply IH, Hf. }
      rewrite (G files _ l Hnone). intros [= Hl].
      apply (f_equal (@length Event)) in Hl. rewrite length_app in Hl.
      simpl in Hl. lia.
Qed.

End ImageUploadFacts.
